(** * Cursor-trail script (script.js): spawn throttling and marker lifecycle

    A shallow embedding of [script.js].  The script keeps three pieces of
    module-level state ([isHovering], [last], and the children of the
    [banner] element), reads two host sources ([new Date().getTime()] and
    [Math.random()]) and registers five event handlers.

    Modelling choices.
    - Numbers.  [clientX]/[clientY] are pixel coordinates and [getTime()]
      is a millisecond count: both are modelled as [Z] with exact
      arithmetic.  [Math.sqrt] is kept exact as the real square root
      ([calcDistance] below); the comparison the handler makes on it is
      the executable test [hasMovedFarEnough], and the two are related
      by [hasMovedFarEnough_spec].
    - Host sources.  The n-th call of [new Date().getTime()] returns
      [clock n], the n-th call of [Math.random()] returns [random n]; the
      world counts the calls made so far.  [Math.random()] returns a
      binary64, written as a fraction over a power of two ([isBinary64]);
      its product with an integer is rounded as binary64 does
      ([mulBinary64]).
    - Objects.  Position objects are never mutated after their creation
      ([originPosition] included), so storing a reference and storing the
      value cannot be told apart: positions are values.
    - DOM.  Only the star nodes of [banner] are tracked, by node identity.
      [banner.removeChild] raises [NotFoundError] when the node is not a
      child of [banner], as the DOM standard prescribes.
    - Exceptions.  A handler either returns normally or throws; in both
      cases the world reached so far is kept. *)

From Stdlib Require Import ZArith QArith Qround Reals Lra Lia Bool List String
  DecimalString DecimalZ.
Import ListNotations.

Local Open Scope Z_scope.

(** ** Data *)

Record Position : Type := mkPosition { x : Z; y : Z }.

Definition originPosition : Position := {| x := 0; y := 0 |}.

(* const last = { starTimestamp, starPosition, mousePosition } *)
Record Last : Type := mkLast {
  starTimestamp : Z;
  starPosition : Position;
  mousePosition : Position
}.

Module config.
Definition minimumTimeBetweenStars : Z := 200.
Definition minimumDistanceBetweenStars : Z := 100.
Definition colors : list string :=
  ["159, 81, 178"; "59, 54, 178"; "231, 233, 235"]%string.
Definition sizes : list string := ["1.4rem"; "1rem"; "0.6rem"]%string.
End config.

(* The span built by createStar: its class and the values the script
   assigns to its style fields (what the style setter of the browser keeps
   of an assigned string is not modelled).  A palette lookup that is out
   of range yields [undefined] ([None]). *)
Record Star : Type := mkStar {
  className : string;
  left : string;
  top : string;
  fontSize : option string;
  color : string;
  textShadow : string
}.

(* A DOM node: its identity and its content. *)
Record Node : Type := mkNode { nodeId : nat; nodeStar : Star }.

(* A pending [setTimeout(() => banner.removeChild(element), delay)]. *)
Record Timer : Type := mkTimer { timerDelay : Z; timerElement : nat }.

Record World : Type := mkWorld {
  isHovering : bool;
  last : Last;
  children : list Node;      (* star nodes currently attached to banner *)
  timers : list Timer;       (* removals scheduled and not yet fired *)
  nextNode : nat;            (* identity of the next created element *)
  clockReads : nat;          (* calls of getTime() made so far *)
  randomReads : nat          (* calls of Math.random() made so far *)
}.

Inductive Error : Type :=
| TypeError        (* property read on undefined *)
| NotFoundError.   (* removeChild of a node that is not a child *)

(** ** The monad of handlers: state and exceptions *)

Inductive Result (A : Type) : Type :=
| Ok (a : A) (w : World)
| Throw (e : Error) (w : World).
Arguments Ok {A} a w.
Arguments Throw {A} e w.

Definition M (A : Type) : Type := World -> Result A.

Definition ret {A} (a : A) : M A := fun w => Ok a w.

Definition bind {A B} (m : M A) (k : A -> M B) : M B :=
  fun w => match m w with
           | Ok a w' => k a w'
           | Throw e w' => Throw e w'
           end.

Definition throw {A} (e : Error) : M A := fun w => Throw e w.

Definition gets {A} (f : World -> A) : M A := fun w => Ok (f w) w.

Definition modify (f : World -> World) : M unit := fun w => Ok tt (f w).

Declare Scope js_scope.
Delimit Scope js_scope with js.
Notation "x <- m ;; k" := (bind m (fun x => k))
  (at level 61, m at next level, right associativity) : js_scope.
Notation "m ;; k" := (bind m (fun _ => k))
  (at level 61, right associativity) : js_scope.
Local Open Scope js_scope.

Definition worldOf {A} (r : Result A) : World :=
  match r with Ok _ w => w | Throw _ w => w end.

Definition returns {A} (r : Result A) : bool :=
  match r with Ok _ _ => true | Throw _ _ => false end.

(** Field updates of the world. *)

Definition setHovering (b : bool) (w : World) : World :=
  mkWorld b (last w) (children w) (timers w) (nextNode w)
          (clockReads w) (randomReads w).

Definition setLast (l : Last) (w : World) : World :=
  mkWorld (isHovering w) l (children w) (timers w) (nextNode w)
          (clockReads w) (randomReads w).

Definition setChildren (c : list Node) (w : World) : World :=
  mkWorld (isHovering w) (last w) c (timers w) (nextNode w)
          (clockReads w) (randomReads w).

Definition setTimers (t : list Timer) (w : World) : World :=
  mkWorld (isHovering w) (last w) (children w) t (nextNode w)
          (clockReads w) (randomReads w).

Definition setNextNode (n : nat) (w : World) : World :=
  mkWorld (isHovering w) (last w) (children w) (timers w) n
          (clockReads w) (randomReads w).

Definition setClockReads (n : nat) (w : World) : World :=
  mkWorld (isHovering w) (last w) (children w) (timers w) (nextNode w)
          n (randomReads w).

Definition setRandomReads (n : nat) (w : World) : World :=
  mkWorld (isHovering w) (last w) (children w) (timers w) (nextNode w)
          (clockReads w) n.

(** ** Pure helpers of the script *)

(* String(value) for an integer. *)
Definition numberToString (value : Z) : string :=
  NilEmpty.string_of_int (Z.to_int value).

(* const withUnit = (value, unit) => `${value}${unit}` *)
Definition withUnit (value : Z) (unit : string) : string :=
  (numberToString value ++ unit)%string.
Definition px (value : Z) : string := withUnit value "px".
Definition ms (value : Z) : string := withUnit value "ms".

(* Math.pow(diffX, 2) + Math.pow(diffY, 2), the argument of Math.sqrt. *)
Definition squaredDistance (a b : Position) : Z :=
  let diffX := x b - x a in
  let diffY := y b - y a in
  diffX ^ 2 + diffY ^ 2.

(* const calcDistance = (a, b) => Math.sqrt(diffX^2 + diffY^2)
   The exact Euclidean distance, of which the script gets the binary64
   rounding.  On integer positions the sum of squares is exact and the
   rounding of the root is monotone and exact at integers, so comparing
   with 0 or with the integer threshold gives the same answer on both;
   nothing else is drawn from this definition. *)
Definition calcDistance (a b : Position) : R :=
  let diffX := IZR (x b - x a) in
  let diffY := IZR (y b - y a) in
  sqrt (diffX ^ 2 + diffY ^ 2)%R.

(* const calcElapsedTime = (start, end) => end - start *)
Definition calcElapsedTime (start end_ : Z) : Z := end_ - start.

(* calcDistance(a, b) >= config.minimumDistanceBetweenStars, decided on
   the squares (see hasMovedFarEnough_spec). *)
Definition hasMovedFarEnough (a b : Position) : bool :=
  config.minimumDistanceBetweenStars ^ 2 <=? squaredDistance a b.

(* calcElapsedTime(start, now) > config.minimumTimeBetweenStars *)
Definition hasBeenLongEnough (start now : Z) : bool :=
  config.minimumTimeBetweenStars <? calcElapsedTime start now.

(* last.mousePosition.x === 0 && last.mousePosition.y === 0 *)
Definition isOrigin (p : Position) : bool := (x p =? 0) && (y p =? 0).

(* Rounding of a non-negative integer to 53 significant bits, to nearest
   and to even on a tie: what binary64 does to a mantissa. *)
Definition roundMantissa (p : Z) : Z :=
  let k := Z.log2 p - 52 in
  if k <=? 0 then p
  else
    let q := p / 2 ^ k in
    let rest := p mod 2 ^ k in
    let half := 2 ^ (k - 1) in
    if (half <? rest) || ((rest =? half) && Z.odd q)
    then (q + 1) * 2 ^ k
    else q * 2 ^ k.

Definition round53 (p : Z) : Z := Z.sgn p * roundMantissa (Z.abs p).

(* The fraction r is a binary64 of magnitude below 2^53 in its written
   form: a numerator of at most 53 bits over a power of two no finer than
   2^-1074.  Every binary64 in [0,1) has this form. *)
Definition isBinary64 (r : Q) : bool :=
  let d := Z.pos (Qden r) in
  (d =? 2 ^ Z.log2 d) && (Z.log2 d <=? 1074) && (Z.abs (Qnum r) <? 2 ^ 53).

(* r * n in binary64, for a binary64 r as above and an integer n below
   2^53 in magnitude: the numerator of the exact product is rounded to 53
   significant bits (the power of two below it only shifts the exponent,
   and a product that needs rounding is never subnormal). *)
Definition mulBinary64 (r : Q) (n : Z) : Q := round53 (Qnum r * n) # Qden r.

(* items[i]: undefined outside the array *)
Definition index {A} (items : list A) (i : Z) : option A :=
  if i <? 0 then None else nth_error items (Z.to_nat i).

(* `${color}` of a possibly undefined value *)
Definition show (s : option string) : string :=
  match s with Some s => s | None => "undefined" end.

(** ** The script, relative to the host's clock and random source *)

Section Script.

Variable clock : nat -> Z.     (* successive values of new Date().getTime() *)
Variable random : nat -> Q.    (* successive values of Math.random() *)

(* new Date().getTime() *)
Definition getTime : M Z :=
  fun w => Ok (clock (clockReads w)) (setClockReads (S (clockReads w)) w).

(* Math.random() *)
Definition mathRandom : M Q :=
  fun w => Ok (random (randomReads w)) (setRandomReads (S (randomReads w)) w).

(* const rand = (min, max) =>
     Math.floor(Math.random() * (max - min + 1)) + min
   min and max are integers below 2^52 in magnitude (array bounds here),
   on which the sums are exact; the product is the binary64 one. *)
Definition rand (min max : Z) : M Z :=
  r <- mathRandom ;;
  ret (Qfloor (mulBinary64 r (max - min + 1)) + min).

(* const selectRandom = items => items[rand(0, items.length - 1)] *)
Definition selectRandom {A} (items : list A) : M (option A) :=
  i <- rand 0 (Z.of_nat (List.length items) - 1) ;;
  ret (index items i).

(* document.createElement("span") *)
Definition createElement : M nat :=
  fun w => Ok (nextNode w) (setNextNode (S (nextNode w)) w).

(* const appendElement = element => banner.appendChild(element) *)
Definition appendElement (element : Node) : M unit :=
  modify (fun w => setChildren (children w ++ [element]) w).

(* banner.removeChild(element) *)
Definition removeChild (element : nat) : M unit :=
  fun w =>
    if existsb (fun n => Nat.eqb (nodeId n) element) (children w)
    then Ok tt (setChildren
                  (filter (fun n => negb (Nat.eqb (nodeId n) element))
                          (children w)) w)
    else Throw NotFoundError w.

(* const removeElement = (element, delay) =>
     setTimeout(() => banner.removeChild(element), delay) *)
Definition removeElement (element : nat) (delay : Z) : M unit :=
  modify (fun w => setTimers (timers w ++ [mkTimer delay element]) w).

Definition createStar (position : Position) : M unit :=
  star <- createElement ;;
  color <- selectRandom config.colors ;;
  size <- selectRandom config.sizes ;;
  appendElement
    (mkNode star
       {| className := "fa-solid fa-star star";
          left := px (x position);
          top := px (y position);
          fontSize := size;
          color := ("rgb(" ++ show color ++ ")")%string;
          textShadow :=
            ("0px 0px 1.5rem rgb(" ++ show color ++ " / 0.5)")%string |}) ;;
  removeElement star 3000.

Definition updateLastStar (position : Position) : M unit :=
  t <- getTime ;;
  modify (fun w => setLast (mkLast t (starPosition (last w))
                                   (mousePosition (last w))) w) ;;
  modify (fun w => setLast (mkLast (starTimestamp (last w)) position
                                   (mousePosition (last w))) w).

(* const updateLastMousePosition = position => last.mousePosition = position *)
Definition updateLastMousePosition (position : Position) : M unit :=
  modify (fun w => setLast (mkLast (starTimestamp (last w))
                                   (starPosition (last w)) position) w).

Definition adjustLastMousePosition (position : Position) : M unit :=
  l <- gets last ;;
  if isOrigin (mousePosition l)
  then modify (fun w => setLast (mkLast (starTimestamp (last w))
                                        (starPosition (last w)) position) w)
  else ret tt.

(* What a handler receives: an object with clientX and clientY (a
   MouseEvent or a Touch), or undefined. *)
Record Pointer : Type := mkPointer { clientX : Z; clientY : Z }.

(* e.clientX on a possibly undefined e *)
Definition deref (e : option Pointer) : M Pointer :=
  match e with
  | Some p => ret p
  | None => throw TypeError
  end.

Definition handleOnMove (e : option Pointer) : M unit :=
  hovering <- gets isHovering ;;
  if hovering then
    p <- deref e ;;
    let mousePosition := {| x := clientX p; y := clientY p |} in
    adjustLastMousePosition mousePosition ;;
    now <- getTime ;;
    l <- gets last ;;
    let hasMovedFarEnough := hasMovedFarEnough (starPosition l) mousePosition in
    let hasBeenLongEnough := hasBeenLongEnough (starTimestamp l) now in
    (if hasMovedFarEnough || hasBeenLongEnough
     then createStar mousePosition ;; updateLastStar mousePosition
     else ret tt) ;;
    updateLastMousePosition mousePosition
  else ret tt.

(** Events delivered by the host, and the handlers the script installs. *)
Inductive Event : Type :=
| BannerMouseEnter                       (* banner 'mouseenter' *)
| BannerMouseLeave                       (* banner 'mouseleave' *)
| MouseMove (e : Pointer)                (* window.onmousemove *)
| TouchMove (touches : list Pointer)     (* window.ontouchmove *)
| BodyMouseLeave                         (* document.body.onmouseleave *)
| TimerFires (element : nat).               (* a removal timer fires *)

Definition onmousemove (e : Pointer) : M unit := handleOnMove (Some e).

(* window.ontouchmove = e => handleOnMove(e.touches[0]) *)
Definition ontouchmove (touches : list Pointer) : M unit :=
  handleOnMove (nth_error touches 0).

(* document.body.onmouseleave = () => updateLastMousePosition(originPosition) *)
Definition onmouseleave : M unit := updateLastMousePosition originPosition.

(* () => banner.removeChild(element), run when its timer fires *)
Definition removalCallback (element : nat) : M unit :=
  modify (fun w => setTimers
                     (filter (fun t => negb (Nat.eqb (timerElement t) element))
                             (timers w)) w) ;;
  removeChild element.

Definition dispatch (ev : Event) : M unit :=
  match ev with
  | BannerMouseEnter => modify (setHovering true)
  | BannerMouseLeave => modify (setHovering false)
  | MouseMove e => onmousemove e
  | TouchMove touches => ontouchmove touches
  | BodyMouseLeave => onmouseleave
  | TimerFires element => removalCallback element
  end.

(* The world once the script has been loaded:
   let start = new Date().getTime(); const last = { ... } *)
Definition initial : World :=
  let start := clock 0 in
  {| isHovering := false;
     last := {| starTimestamp := start;
                starPosition := originPosition;
                mousePosition := originPosition |};
     children := [];
     timers := [];
     nextNode := 0;
     clockReads := 1;
     randomReads := 0 |}.

(* Events are handled one after the other; an exception thrown by a
   handler is reported by the host and the next event is handled in the
   world the handler left. *)
Fixpoint run (evs : list Event) (w : World) : World :=
  match evs with
  | [] => w
  | ev :: evs' => run evs' (worldOf (dispatch ev w))
  end.

End Script.

(** ** Vocabulary of the properties *)

(* The position sample a handler builds from its argument:
   { x: e.clientX, y: e.clientY } *)
Definition sample (p : Pointer) : Position :=
  {| x := clientX p; y := clientY p |}.

(* The three fields of the throttle state agree. *)
Definition sameThrottle (w w' : World) : Prop :=
  starTimestamp (last w') = starTimestamp (last w) /\
  starPosition (last w') = starPosition (last w) /\
  mousePosition (last w') = mousePosition (last w).

(* Going from w to w', one star placed at pos has been attached to banner. *)
Definition spawnedAt (pos : Position) (w w' : World) : Prop :=
  exists n, children w' = children w ++ [n] /\
            left (nodeStar n) = px (x pos) /\
            top (nodeStar n) = px (y pos).

(* Going from w to w', a star has been attached to banner. *)
Definition spawned (w w' : World) : Prop :=
  exists n, children w' = children w ++ [n].

(* Going from w to w', nothing was created, attached or scheduled. *)
Definition noMarker (w w' : World) : Prop :=
  children w' = children w /\ timers w' = timers w /\
  nextNode w' = nextNode w.

(* The condition of the [if] in handleOnMove, on the state and clock value
   it is evaluated with. *)
Definition shouldSpawn (l : Last) (pos : Position) (now : Z) : bool :=
  hasMovedFarEnough (starPosition l) pos ||
  hasBeenLongEnough (starTimestamp l) now.

(* items[floor(r * items.length)], the value selectRandom returns when
   Math.random() returns r. *)
Definition pick {A} (items : list A) (r : Q) : option A :=
  index items
        (Qfloor (mulBinary64 r (Z.of_nat (List.length items) - 1 - 0 + 1)) + 0).

(* The node createStar attaches, given its identity and the two random
   values drawn. *)
Definition starNode (id : nat) (pos : Position) (r1 r2 : Q) : Node :=
  mkNode id
    {| className := "fa-solid fa-star star";
       left := px (x pos);
       top := px (y pos);
       fontSize := pick config.sizes r2;
       color := ("rgb(" ++ show (pick config.colors r1) ++ ")")%string;
       textShadow :=
         ("0px 0px 1.5rem rgb(" ++ show (pick config.colors r1) ++ " / 0.5)")%string
    |}.


(* The world w with last.mousePosition replaced by q. *)
Definition withMousePosition (q : Position) (w : World) : World :=
  setLast (mkLast (starTimestamp (last w)) (starPosition (last w)) q) w.

(* A host-side action, outside the script: the children of banner are
   discarded while removals are still pending (banner.replaceChildren(),
   or the page rewriting the content of banner). *)
Definition clearBanner (w : World) : World := setChildren [] w.

(* The identities of the nodes attached to banner. *)
Definition childIds (w : World) : list nat := map nodeId (children w).

(** ** A concrete host, for the runs evaluated below *)

(* A clock that moves by one millisecond at every reading, the script
   being loaded at 1000. *)
Definition demoClock (n : nat) : Z := 1000 + Z.of_nat n.

(* Math.random() returning 0, 1/4, 1/2, 3/4, 0, ... *)
Definition demoRandom (n : nat) : Q := Z.of_nat (n mod 4) # 4.

(* The script has been loaded and the pointer has entered banner. *)
Definition hoveringWorld : World :=
  run demoClock demoRandom [BannerMouseEnter] (initial demoClock).

(* The same, and one sample at (150, 0) has been handled. *)
Definition oneStarWorld : World :=
  run demoClock demoRandom [BannerMouseEnter; MouseMove (mkPointer 150 0)]
      (initial demoClock).

(* The clock of the scenario of the specification: loaded at 0, a first
   sample at 50 (two readings, the sample spawns), a second at 60, a third
   at 310. *)
Definition scenarioClock (n : nat) : Z := nth n [0; 50; 50; 60; 310; 310] 310.

(* Where the stars attached to banner are. *)
Definition starOffsets (w : World) : list (string * string) :=
  map (fun n => (left (nodeStar n), top (nodeStar n))) (children w).

(** ** Properties *)

(** *** Random selection *)

(* Rounding to 53 bits is exact up to 53 bits and otherwise moves by at
   most half a unit of the last place kept. *)
Lemma roundMantissa_close (p : Z) :
  0 <= p ->
  (Z.log2 p - 52 <= 0 -> roundMantissa p = p) /\
  (0 < Z.log2 p - 52 ->
   p - 2 ^ (Z.log2 p - 52 - 1) <= roundMantissa p
   <= p + 2 ^ (Z.log2 p - 52 - 1)).
Proof.
  intros Hp. unfold roundMantissa. cbv zeta.
  remember (Z.log2 p - 52) as k eqn:Ek. split.
  - intros Hk. apply Z.leb_le in Hk. rewrite Hk. reflexivity.
  - intros Hk. destruct (k <=? 0) eqn:Hle; [apply Z.leb_le in Hle; lia | ].
    assert (H2k : 2 ^ k = 2 * 2 ^ (k - 1)).
    { rewrite <- Z.pow_succ_r by lia. f_equal. lia. }
    assert (Hpos : 0 < 2 ^ (k - 1)) by (apply Z.pow_pos_nonneg; lia).
    pose proof (Z.div_mod p (2 ^ k)) as Hdm.
    pose proof (Z.mod_pos_bound p (2 ^ k)) as Hmb.
    remember (p / 2 ^ k) as q. remember (p mod 2 ^ k) as rest.
    remember (2 ^ (k - 1)) as half.
    destruct ((half <? rest) || ((rest =? half) && Z.odd q)) eqn:Hup.
    + assert (half <= rest).
      { apply orb_true_iff in Hup. destruct Hup as [Hup | Hup].
        - apply Z.ltb_lt in Hup. lia.
        - apply andb_true_iff in Hup. destruct Hup as [Hup _].
          apply Z.eqb_eq in Hup. lia. }
      nia.
    + assert (rest <= half).
      { apply orb_false_iff in Hup. destruct Hup as [Hup _].
        apply Z.ltb_ge in Hup. exact Hup. }
      nia.
Qed.

(* The binary64 product of a value m/d below 1 (m of at most 53 bits) and
   an integer n >= 1 never reaches n: half a unit of the last place of the
   product is below n, and the exact product is at least n below n*d. *)
Lemma round53_product_below (m d n : Z) :
  0 <= m -> m < 2 ^ 53 -> m < d -> 1 <= n ->
  0 <= round53 (m * n) < n * d.
Proof.
  intros Hm Hm53 Hmd Hn.
  assert (Hp : 0 <= m * n) by nia.
  unfold round53.
  destruct (Z.eq_dec (m * n) 0) as [Hz | Hnz].
  - rewrite Hz. cbn. nia.
  - rewrite Z.sgn_pos by lia. rewrite Z.abs_eq by lia. rewrite Z.mul_1_l.
    destruct (roundMantissa_close (m * n) Hp) as [Hexact Hclose].
    destruct (Z_le_gt_dec (Z.log2 (m * n) - 52) 0) as [Hk | Hk].
    + rewrite (Hexact Hk). nia.
    + assert (Hk' : 0 < Z.log2 (m * n) - 52) by lia.
      specialize (Hclose Hk').
      remember (Z.log2 (m * n) - 52) as k eqn:Ek.
      assert (Hlog : 2 ^ Z.log2 (m * n) <= m * n).
      { apply Z.log2_spec. lia. }
      assert (Hsplit : 2 ^ Z.log2 (m * n) = 2 ^ 53 * 2 ^ (k - 1)).
      { rewrite <- Z.pow_add_r by lia. f_equal. lia. }
      assert (Hpos : 0 < 2 ^ (k - 1)) by (apply Z.pow_pos_nonneg; lia).
      assert (Hlt : 2 ^ (k - 1) < n).
      { remember (2 ^ (k - 1)) as h. remember (2 ^ 53) as B. nia. }
      split; [lia | ]. nia.
Qed.

(* Math.floor of the binary64 product of a binary64 in [0,1) and an
   integer n >= 1 is an integer from 0 to n - 1. *)
Lemma floor_mulBinary64_range (r : Q) (n : Z) :
  isBinary64 r = true -> (0 <= r)%Q -> (r < 1)%Q -> 1 <= n ->
  0 <= Qfloor (mulBinary64 r n) < n.
Proof.
  intros Hb H0 H1 Hn. destruct r as [m d].
  unfold isBinary64 in Hb. cbn [Qnum Qden] in Hb.
  apply andb_true_iff in Hb. destruct Hb as [_ Hb]. apply Z.ltb_lt in Hb.
  unfold Qle in H0. unfold Qlt in H1. cbn [Qnum Qden] in H0, H1.
  assert (Hm : 0 <= m) by lia.
  rewrite Z.abs_eq in Hb by exact Hm.
  assert (Hmd : m < Z.pos d) by lia.
  pose proof (round53_product_below m (Z.pos d) n Hm Hb Hmd Hn) as [Hlo Hhi].
  unfold mulBinary64. cbn [Qnum Qden Qfloor].
  split.
  - apply Z.div_pos; lia.
  - apply Z.div_lt_upper_bound; lia.
Qed.

(* With Math.random() a binary64 in [0,1) and a non-empty palette, the
   index computed by rand is within the palette: selectRandom never
   yields undefined. *)
Lemma pick_defined {A} (items : list A) (r : Q) :
  items <> [] -> isBinary64 r = true -> (0 <= r)%Q -> (r < 1)%Q ->
  exists a, pick items r = Some a /\ In a items.
Proof.
  intros Hne Hb H0 H1. unfold pick, index.
  remember (Z.of_nat (List.length items)) as len eqn:Elen.
  assert (Hlen : 1 <= len).
  { subst len. destruct items; [contradiction | cbn; lia]. }
  replace (len - 1 - 0 + 1) with len by lia. rewrite Z.add_0_r.
  pose proof (floor_mulBinary64_range r len Hb H0 H1 Hlen) as [Hlo Hhi].
  destruct (Qfloor (mulBinary64 r len) <? 0) eqn:Hneg;
    [apply Z.ltb_lt in Hneg; exfalso; lia | ].
  destruct (nth_error items (Z.to_nat (Qfloor (mulBinary64 r len)))) eqn:Hn.
  - exists a. split; [reflexivity | ]. eapply nth_error_In. exact Hn.
  - exfalso. apply nth_error_None in Hn. lia.
Qed.

(** *** The distance test *)

(* The test made on the squares decides the comparison of the Euclidean
   distance with the threshold. *)
Lemma hasMovedFarEnough_spec (a b : Position) :
  hasMovedFarEnough a b = true <->
  (IZR config.minimumDistanceBetweenStars <= calcDistance a b)%R.
Proof.
  unfold hasMovedFarEnough, calcDistance, squaredDistance,
    config.minimumDistanceBetweenStars.
  set (dx := x b - x a). set (dy := y b - y a). cbv zeta.
  rewrite Z.leb_le.
  assert (Hs : (IZR dx ^ 2 + IZR dy ^ 2)%R = IZR (dx ^ 2 + dy ^ 2)).
  { rewrite plus_IZR, !pow_IZR. reflexivity. }
  assert (Hnn : (0 <= IZR (dx ^ 2 + dy ^ 2))%R).
  { apply IZR_le. nia. }
  rewrite Hs. split; intros H.
  - replace (IZR 100) with (sqrt (IZR (100 ^ 2))).
    + apply sqrt_le_1_alt. apply IZR_le. exact H.
    + replace (IZR (100 ^ 2)) with (100 * 100)%R by (simpl; lra).
      apply sqrt_square. lra.
  - apply le_IZR.
    rewrite <- (sqrt_sqrt (IZR (dx ^ 2 + dy ^ 2))) by exact Hnn.
    replace (IZR (100 ^ 2)) with (100 * 100)%R by (simpl; lra).
    apply Rmult_le_compat; try lra; exact H.
Qed.

(* The elapsed-time test is the strict comparison. *)
Lemma hasBeenLongEnough_spec (start now : Z) :
  hasBeenLongEnough start now = true <->
  config.minimumTimeBetweenStars < calcElapsedTime start now.
Proof. unfold hasBeenLongEnough. apply Z.ltb_lt. Qed.

Lemma shouldSpawn_spec (l : Last) (pos : Position) (now : Z) :
  shouldSpawn l pos now = true <->
  (IZR config.minimumDistanceBetweenStars <= calcDistance (starPosition l) pos)%R
  \/ config.minimumTimeBetweenStars < calcElapsedTime (starTimestamp l) now.
Proof.
  unfold shouldSpawn.
  rewrite orb_true_iff, hasMovedFarEnough_spec, hasBeenLongEnough_spec.
  reflexivity.
Qed.

(* The same, with the distance and the elapsed time written out. *)
Lemma shouldSpawn_explicit (l : Last) (pos : Position) (now : Z) :
  shouldSpawn l pos now = true <->
  (100 <= sqrt (IZR (x pos - x (starPosition l)) ^ 2 +
                IZR (y pos - y (starPosition l)) ^ 2))%R \/
  200 < now - starTimestamp l.
Proof. exact (shouldSpawn_spec l pos now). Qed.

Section Properties.

Variable clock : nat -> Z.
Variable random : nat -> Q.


(** *** Stepping the handler *)

Arguments createStar : simpl never.
Arguments updateLastStar : simpl never.
Arguments hasMovedFarEnough : simpl never.
Arguments hasBeenLongEnough : simpl never.
Arguments isOrigin : simpl never.
Arguments px : simpl never.
Arguments pick : simpl never.

(* Unfold the handler and the monad, leaving the threshold tests and the
   two spawn actions folded. *)
Ltac step_handler :=
  unfold handleOnMove, bind, gets, deref, ret, adjustLastMousePosition,
    updateLastMousePosition, modify, getTime;
  cbn.

(* What createStar does to the world: one element created, two random
   values drawn, the star attached and its removal scheduled. *)
Lemma createStar_run (pos : Position) (w : World) :
  createStar random pos w =
  Ok tt {| isHovering := isHovering w;
           last := last w;
           children :=
             children w ++
             [starNode (nextNode w) pos
                       (random (randomReads w)) (random (S (randomReads w)))];
           timers := timers w ++ [mkTimer 3000 (nextNode w)];
           nextNode := S (nextNode w);
           clockReads := clockReads w;
           randomReads := S (S (randomReads w)) |}.
Proof. reflexivity. Qed.

(* What updateLastStar does: a fresh clock reading is stored. *)
Lemma updateLastStar_run (pos : Position) (w : World) :
  updateLastStar clock pos w =
  Ok tt {| isHovering := isHovering w;
           last := {| starTimestamp := clock (clockReads w);
                      starPosition := pos;
                      mousePosition := mousePosition (last w) |};
           children := children w;
           timers := timers w;
           nextNode := nextNode w;
           clockReads := S (clockReads w);
           randomReads := randomReads w |}.
Proof. reflexivity. Qed.

Lemma handleOnMove_idle (e : option Pointer) (w : World) :
  isHovering w = false -> handleOnMove clock random e w = Ok tt w.
Proof.
  intros Hh. unfold handleOnMove, bind, gets. rewrite Hh. reflexivity.
Qed.

Lemma handleOnMove_undefined (w : World) :
  isHovering w = true -> handleOnMove clock random None w = Throw TypeError w.
Proof.
  intros Hh. unfold handleOnMove, bind, gets. rewrite Hh. reflexivity.
Qed.

(* A gated sample that does not spawn. *)
Lemma handleOnMove_miss (p : Pointer) (w : World) :
  isHovering w = true ->
  shouldSpawn (last w) (sample p) (clock (clockReads w)) = false ->
  handleOnMove clock random (Some p) w =
  Ok tt {| isHovering := true;
           last := {| starTimestamp := starTimestamp (last w);
                      starPosition := starPosition (last w);
                      mousePosition := sample p |};
           children := children w;
           timers := timers w;
           nextNode := nextNode w;
           clockReads := S (clockReads w);
           randomReads := randomReads w |}.
Proof.
  destruct w as [h [ts sp mp] ch tm nn cr rr]. unfold shouldSpawn, sample.
  cbn. intros -> Hd. step_handler.
  destruct (isOrigin mp); cbn; rewrite Hd; reflexivity.
Qed.

(* A gated sample that spawns. *)
Lemma handleOnMove_hit (p : Pointer) (w : World) :
  isHovering w = true ->
  shouldSpawn (last w) (sample p) (clock (clockReads w)) = true ->
  handleOnMove clock random (Some p) w =
  Ok tt {| isHovering := true;
           last := {| starTimestamp := clock (S (clockReads w));
                      starPosition := sample p;
                      mousePosition := sample p |};
           children :=
             children w ++
             [starNode (nextNode w) (sample p)
                       (random (randomReads w)) (random (S (randomReads w)))];
           timers := timers w ++ [mkTimer 3000 (nextNode w)];
           nextNode := S (nextNode w);
           clockReads := S (S (clockReads w));
           randomReads := S (S (randomReads w)) |}.
Proof.
  destruct w as [h [ts sp mp] ch tm nn cr rr]. unfold shouldSpawn, sample.
  cbn. intros -> Hd. step_handler.
  destruct (isOrigin mp); cbn; rewrite Hd, createStar_run; cbn;
    rewrite updateLastStar_run; reflexivity.
Qed.

(* Attaching a star and attaching nothing exclude each other. *)
Lemma spawned_grows (w w' : World) :
  spawned w w' -> children w' <> children w.
Proof.
  intros [n Hn] Heq. rewrite Heq in Hn.
  apply (f_equal (@List.length Node)) in Hn.
  rewrite length_app in Hn. cbn in Hn. lia.
Qed.

Lemma spawnedAt_spawned (pos : Position) (w w' : World) :
  spawnedAt pos w w' -> spawned w w'.
Proof. intros [n [Hn _]]. exists n. exact Hn. Qed.

Lemma noMarker_not_spawned (w w' : World) :
  noMarker w w' -> ~ spawned w w'.
Proof. intros [Hc _] Hs. exact (spawned_grows w w' Hs Hc). Qed.

(* The two outcomes of a gated sample, by the value of the test. *)
Lemma handleOnMove_gated (p : Pointer) (w : World) :
  isHovering w = true ->
  let w' := worldOf (handleOnMove clock random (Some p) w) in
  handleOnMove clock random (Some p) w = Ok tt w' /\
  mousePosition (last w') = sample p /\
  (if shouldSpawn (last w) (sample p) (clock (clockReads w))
   then spawnedAt (sample p) w w' /\
        starPosition (last w') = sample p /\
        starTimestamp (last w') = clock (S (clockReads w))
   else noMarker w w' /\
        starPosition (last w') = starPosition (last w) /\
        starTimestamp (last w') = starTimestamp (last w)).
Proof.
  intros Hh.
  destruct (shouldSpawn (last w) (sample p) (clock (clockReads w))) eqn:Hd.
  - rewrite (handleOnMove_hit p w Hh Hd). cbn.
    repeat split.
    eexists. split; [reflexivity | split; reflexivity].
  - rewrite (handleOnMove_miss p w Hh Hd). cbn.
    repeat split.
Qed.

(** *** The throttle *)

(** C1.  While hovering, a sample attaches a star exactly when the
    Euclidean distance from the last star position is at least 100 or the
    time elapsed since the last star, now - last.starTimestamp, is more
    than 200; otherwise nothing is created.  At an elapsed time of exactly
    200 with a distance below 100 nothing is created; at a distance of
    exactly 100 a star is. *)
Theorem C1_spawn_iff_far_or_late (p : Pointer) (w : World) :
  isHovering w = true ->
  let pos := sample p in
  let now := clock (clockReads w) in
  let diffX := x pos - x (starPosition (last w)) in
  let diffY := y pos - y (starPosition (last w)) in
  let distance := sqrt (IZR diffX ^ 2 + IZR diffY ^ 2)%R in
  let elapsed := now - starTimestamp (last w) in
  let w' := worldOf (handleOnMove clock random (Some p) w) in
  handleOnMove clock random (Some p) w = Ok tt w' /\
  (spawnedAt pos w w' <-> (100 <= distance)%R \/ 200 < elapsed) /\
  (noMarker w w' <-> ~ ((100 <= distance)%R \/ 200 < elapsed)) /\
  (elapsed = 200 -> (distance < 100)%R -> noMarker w w') /\
  (distance = 100%R -> spawnedAt pos w w').
Proof.
  intros Hh pos now diffX diffY distance elapsed w'.
  destruct (handleOnMove_gated p w Hh) as [Hrun [_ Hcase]].
  fold w' pos now in Hrun, Hcase.
  assert (Hspec : shouldSpawn (last w) pos now = true <->
                  (100 <= distance)%R \/ 200 < elapsed)
    by exact (shouldSpawn_explicit (last w) pos now).
  assert (Hiff : spawnedAt pos w w' <-> (100 <= distance)%R \/ 200 < elapsed).
  { destruct (shouldSpawn (last w) pos now).
    - destruct Hcase as [Hs _]. split; [intros _; apply Hspec; reflexivity | intros _; exact Hs].
    - destruct Hcase as [Hn _]. split.
      + intros Hs. exfalso.
        exact (noMarker_not_spawned w w' Hn (spawnedAt_spawned pos w w' Hs)).
      + intros Hc. apply Hspec in Hc. discriminate Hc. }
  assert (Hno : noMarker w w' <-> ~ ((100 <= distance)%R \/ 200 < elapsed)).
  { destruct (shouldSpawn (last w) pos now).
    - destruct Hcase as [Hs _]. split.
      + intros Hn. exfalso.
        exact (noMarker_not_spawned w w' Hn (spawnedAt_spawned pos w w' Hs)).
      + intros Hc. exfalso. apply Hc, Hspec. reflexivity.
    - destruct Hcase as [Hn _]. split; [ | intros _; exact Hn].
      intros _ Hc. apply Hspec in Hc. discriminate Hc. }
  split; [exact Hrun | ]. split; [exact Hiff | ]. split; [exact Hno | ].
  split.
  - intros He Hd. apply Hno. intros [Hc | Hc]; [lra | lia].
  - intros Hd. apply Hiff. left. lra.
Qed.

(** *** The pointer position *)




(* The handler overwrites last.mousePosition and never reads it for its
   test: the value it had before is forgotten. *)
Lemma handleOnMove_forgets (p : Pointer) (q : Position) (w : World) :
  isHovering w = true ->
  handleOnMove clock random (Some p) (withMousePosition q w) =
  handleOnMove clock random (Some p) w.
Proof.
  intros Hh.
  assert (Hh' : isHovering (withMousePosition q w) = true) by exact Hh.
  destruct (shouldSpawn (last w) (sample p) (clock (clockReads w))) eqn:Hd.
  - rewrite (handleOnMove_hit p w Hh Hd).
    rewrite (handleOnMove_hit p (withMousePosition q w) Hh' Hd). reflexivity.
  - rewrite (handleOnMove_miss p w Hh Hd).
    rewrite (handleOnMove_miss p (withMousePosition q w) Hh' Hd). reflexivity.
Qed.



(** C3.  While not hovering, a pointer-move event (mouse or touch,
    whatever it carries) returns normally and leaves the whole world as it
    was: the three fields of the throttle state are not written and no
    marker is created. *)
Theorem C3_not_hovering_drops_sample (e : Pointer) (touches : list Pointer)
        (w : World) :
  isHovering w = false ->
  dispatch clock random (MouseMove e) w = Ok tt w /\
  dispatch clock random (TouchMove touches) w = Ok tt w /\
  (forall ev : option Pointer,
      let w' := worldOf (handleOnMove clock random ev w) in
      w' = w /\ sameThrottle w w' /\ noMarker w w').
Proof.
  intros Hh. split; [ | split].
  - apply handleOnMove_idle. exact Hh.
  - apply handleOnMove_idle. exact Hh.
  - intros ev. rewrite (handleOnMove_idle ev w Hh). cbn.
    unfold sameThrottle, noMarker. repeat split.
Qed.

(** C4.  While hovering, every sample stores its position in
    last.mousePosition, star or not.  last.starPosition and
    last.starTimestamp are written when a star is attached and keep their
    values when none is. *)
Theorem C4_pointer_always_star_only_on_spawn (p : Pointer) (w : World) :
  isHovering w = true ->
  let pos := sample p in
  let w' := worldOf (handleOnMove clock random (Some p) w) in
  handleOnMove clock random (Some p) w = Ok tt w' /\
  mousePosition (last w') = pos /\
  (spawned w w' ->
     starPosition (last w') = pos /\
     starTimestamp (last w') = clock (S (clockReads w))) /\
  (~ spawned w w' ->
     starPosition (last w') = starPosition (last w) /\
     starTimestamp (last w') = starTimestamp (last w)).
Proof.
  intros Hh pos w'.
  destruct (handleOnMove_gated p w Hh) as [Hrun [Hm Hcase]].
  fold w' pos in Hrun, Hm, Hcase.
  split; [exact Hrun | ]. split; [exact Hm | ].
  destruct (shouldSpawn (last w) pos (clock (clockReads w))).
  - destruct Hcase as [Hs Hrest]. split; [intros _; exact Hrest | ].
    intros Hn. exfalso. apply Hn. exact (spawnedAt_spawned pos w w' Hs).
  - destruct Hcase as [Hn Hrest]. split; [ | intros _; exact Hrest].
    intros Hs. exfalso. exact (noMarker_not_spawned w w' Hn Hs).
Qed.

(** *** Malformed events *)

(** C5 (as the code has it).  A touch-move event with an empty touch list
    creates no marker and writes nothing, hovering or not.  It returns
    normally when not hovering; when hovering, reading clientX of the
    missing touch point raises a TypeError. *)
Theorem C5_empty_touch_list (w : World) :
  let r := dispatch clock random (TouchMove []) w in
  r = (if isHovering w then Throw TypeError w else Ok tt w) /\
  worldOf r = w /\ sameThrottle w (worldOf r) /\ noMarker w (worldOf r).
Proof.
  cbn zeta. unfold dispatch, ontouchmove. cbn [nth_error].
  destruct (isHovering w) eqn:Hh.
  - rewrite (handleOnMove_undefined w Hh). cbn.
    unfold sameThrottle, noMarker. repeat split.
  - rewrite (handleOnMove_idle None w Hh). cbn.
    unfold sameThrottle, noMarker. repeat split.
Qed.

(** *** The stored timestamp *)

(** C6 (as the code has it).  When a sample attaches a star,
    last.starPosition becomes the sample position and last.starTimestamp
    becomes the clock value read by updateLastStar, which is the reading
    that follows the one the elapsed-time test used.  The two agree when
    the clock has not moved between the two readings, and the stored one
    is the later when the clock never goes back. *)
Theorem C6_timestamp_is_second_reading (p : Pointer) (w : World) :
  isHovering w = true ->
  let now := clock (clockReads w) in
  let w' := worldOf (handleOnMove clock random (Some p) w) in
  spawned w w' ->
  starPosition (last w') = sample p /\
  starTimestamp (last w') = clock (S (clockReads w)) /\
  clockReads w' = S (S (clockReads w)) /\
  (clock (S (clockReads w)) = now -> starTimestamp (last w') = now) /\
  ((forall n, clock n <= clock (S n)) -> now <= starTimestamp (last w')).
Proof.
  intros Hh now w' Hs.
  destruct (shouldSpawn (last w) (sample p) (clock (clockReads w))) eqn:Hd.
  - unfold w'. rewrite (handleOnMove_hit p w Hh Hd). cbn.
    repeat split.
    + intros H. exact H.
    + intros Hmono. apply Hmono.
  - exfalso. unfold w' in Hs. rewrite (handleOnMove_miss p w Hh Hd) in Hs.
    apply spawned_grows in Hs. apply Hs. reflexivity.
Qed.

(** *** Removal *)

Lemma existsb_nodeId (element : nat) (l : list Node) :
  existsb (fun n => Nat.eqb (nodeId n) element) l = true <->
  In element (map nodeId l).
Proof.
  rewrite existsb_exists, in_map_iff. split.
  - intros [n [Hin Heq]]. apply Nat.eqb_eq in Heq. exists n. split; assumption.
  - intros [n [Heq Hin]]. exists n. split; [exact Hin | ].
    apply Nat.eqb_eq. exact Heq.
Qed.

(* A star that has just been attached has its removal pending with a
   delay of 3000, and the removal succeeds if nothing interferes. *)
Lemma star_removal_scheduled (p : Pointer) (w : World) :
  isHovering w = true ->
  shouldSpawn (last w) (sample p) (clock (clockReads w)) = true ->
  let w' := worldOf (handleOnMove clock random (Some p) w) in
  In (nextNode w) (childIds w') /\
  In (mkTimer 3000 (nextNode w)) (timers w') /\
  returns (dispatch clock random (TimerFires (nextNode w)) w') = true.
Proof.
  intros Hh Hd. cbn zeta. rewrite (handleOnMove_hit p w Hh Hd).
  unfold childIds, dispatch, removalCallback, bind, modify, removeChild.
  cbn [worldOf children timers setTimers].
  assert (Hin : In (nextNode w)
                   (map nodeId
                        (children w ++
                         [starNode (nextNode w) (sample p)
                                   (random (randomReads w))
                                   (random (S (randomReads w)))]))).
  { rewrite map_app, in_app_iff. right. left. reflexivity. }
  split; [exact Hin | ]. split.
  - rewrite in_app_iff. right. left. reflexivity.
  - apply existsb_nodeId in Hin. rewrite Hin. reflexivity.
Qed.

(** C7 (as the code has it).  The removal callback returns normally
    exactly when its star is still a child of banner, and then the star is
    no longer a child; when the star is not a child of banner,
    banner.removeChild raises NotFoundError and the children of banner stay
    as they are. *)
Theorem C7_removal_needs_membership (element : nat) (w : World) :
  let r := dispatch clock random (TimerFires element) w in
  (returns r = true <-> In element (childIds w)) /\
  (In element (childIds w) ->
     ~ In element (childIds (worldOf r)) /\
     forall n, In n (children (worldOf r)) <->
               In n (children w) /\ nodeId n <> element) /\
  (~ In element (childIds w) ->
     exists w', r = Throw NotFoundError w' /\ children w' = children w).
Proof.
  cbn zeta. unfold dispatch, removalCallback, bind, modify, removeChild, childIds.
  cbn [children setTimers].
  destruct (existsb (fun n => Nat.eqb (nodeId n) element) (children w)) eqn:He.
  - apply existsb_nodeId in He. cbn. split; [tauto | ]. split.
    + intros _. split.
      * rewrite in_map_iff. intros [n [Heq Hin]].
        apply filter_In in Hin. destruct Hin as [_ Hne].
        apply negb_true_iff, Nat.eqb_neq in Hne. contradiction.
      * intros n. rewrite filter_In, negb_true_iff, Nat.eqb_neq. reflexivity.
    + intros Hn. contradiction.
  - assert (Hn : ~ In element (map nodeId (children w))).
    { intros Hin. apply existsb_nodeId in Hin. congruence. }
    cbn. split; [split; [discriminate | contradiction] | ]. split.
    + intros Hin. contradiction.
    + intros _. eexists. split; reflexivity.
Qed.

(** *** Leaving the document *)

(** C8.  The document-leave handler sets last.mousePosition to the origin
    and leaves last.starPosition and last.starTimestamp (and everything
    else) as they were, in every world. *)
Theorem C8_document_leave_resets_pointer_only (w : World) :
  let w' := worldOf (dispatch clock random BodyMouseLeave w) in
  dispatch clock random BodyMouseLeave w = Ok tt w' /\
  mousePosition (last w') = originPosition /\
  starPosition (last w') = starPosition (last w) /\
  starTimestamp (last w') = starTimestamp (last w) /\
  isHovering w' = isHovering w /\ noMarker w w' /\
  clockReads w' = clockReads w /\ randomReads w' = randomReads w.
Proof. cbn. unfold noMarker. repeat split. Qed.

(** *** What the test does not read *)

(** C9.  Two runs of the handler while hovering, on the same sample and
    worlds that differ only in last.mousePosition, give the same result:
    the same decision, the same star if any, the same throttle state. *)
Theorem C9_decision_ignores_pointer_position
        (p : Pointer) (q1 q2 : Position) (w : World) :
  isHovering w = true ->
  let r1 := handleOnMove clock random (Some p) (withMousePosition q1 w) in
  let r2 := handleOnMove clock random (Some p) (withMousePosition q2 w) in
  r1 = r2 /\
  last (worldOf r1) = last (worldOf r2) /\
  children (worldOf r1) = children (worldOf r2) /\
  (spawned (withMousePosition q1 w) (worldOf r1) <->
   spawned (withMousePosition q2 w) (worldOf r2)).
Proof.
  intros Hh r1 r2.
  assert (H : r1 = r2).
  { unfold r1, r2. rewrite !handleOnMove_forgets by exact Hh. reflexivity. }
  rewrite H. repeat split; intros Hs; exact Hs.
Qed.


End Properties.

(** ** Concrete runs *)

Example px_positive : px 150 = "150px"%string.
Proof. reflexivity. Qed.

Example px_negative : px (-7) = "-7px"%string.
Proof. reflexivity. Qed.

Example distance_3_4_5 :
  squaredDistance (mkPosition 1 1) (mkPosition 4 5) = 25.
Proof. reflexivity. Qed.

Example exactly_100_is_far_enough :
  hasMovedFarEnough originPosition (mkPosition 60 80) = true /\
  hasMovedFarEnough originPosition (mkPosition 60 79) = false.
Proof. split; reflexivity. Qed.

Example exactly_200_is_not_long_enough :
  hasBeenLongEnough 1000 1200 = false /\ hasBeenLongEnough 1000 1201 = true.
Proof. split; reflexivity. Qed.

(* Enter at (0,0); move to (150,0) at 50: one star.  Move to (160,0) ten
   milliseconds later: none.  Same position at 310: a second star. *)
Example scenario_of_the_specification :
  let step1 := [BannerMouseEnter; MouseMove (mkPointer 150 0)] in
  let step2 := step1 ++ [MouseMove (mkPointer 160 0)] in
  let step3 := step2 ++ [MouseMove (mkPointer 160 0)] in
  let after evs := run scenarioClock demoRandom evs (initial scenarioClock) in
  starOffsets (after step1) = [("150px", "0px")]%string /\
  starOffsets (after step2) = [("150px", "0px")]%string /\
  starOffsets (after step3) = [("150px", "0px"); ("160px", "0px")]%string /\
  last (after step3) = mkLast 310 (mkPosition 160 0) (mkPosition 160 0).
Proof. repeat split. Qed.

(* Both removals fire afterwards: banner is empty again. *)
Example scenario_removals :
  children
    (run scenarioClock demoRandom
         [BannerMouseEnter; MouseMove (mkPointer 150 0);
          MouseMove (mkPointer 160 0); MouseMove (mkPointer 160 0);
          TimerFires 0; TimerFires 1]
         (initial scenarioClock)) = [].
Proof. reflexivity. Qed.

Lemma C1_witness :
  isHovering hoveringWorld = true /\
  (spawnedAt (sample (mkPointer 150 0)) hoveringWorld
             (worldOf (handleOnMove demoClock demoRandom
                                    (Some (mkPointer 150 0)) hoveringWorld)) <->
   (100 <= sqrt (IZR (x (sample (mkPointer 150 0)) -
                      x (starPosition (last hoveringWorld))) ^ 2 +
                 IZR (y (sample (mkPointer 150 0)) -
                      y (starPosition (last hoveringWorld))) ^ 2))%R \/
   200 < demoClock (clockReads hoveringWorld) -
         starTimestamp (last hoveringWorld)).
Proof.
  split; [reflexivity | ].
  exact (proj1 (proj2 (C1_spawn_iff_far_or_late demoClock demoRandom
                         (mkPointer 150 0) hoveringWorld eq_refl))).
Defined.



Lemma C3_witness :
  isHovering (initial demoClock) = false /\
  dispatch demoClock demoRandom (MouseMove (mkPointer 500 500))
           (initial demoClock) = Ok tt (initial demoClock).
Proof.
  split; [reflexivity | ].
  exact (proj1 (C3_not_hovering_drops_sample demoClock demoRandom
                  (mkPointer 500 500) [] (initial demoClock) eq_refl)).
Defined.

Lemma C4_witness :
  isHovering oneStarWorld = true /\
  mousePosition
    (last (worldOf (handleOnMove demoClock demoRandom
                                 (Some (mkPointer 160 0)) oneStarWorld))) =
  sample (mkPointer 160 0).
Proof.
  split; [reflexivity | ].
  exact (proj1 (proj2 (C4_pointer_always_star_only_on_spawn demoClock demoRandom
                         (mkPointer 160 0) oneStarWorld eq_refl))).
Defined.

(* Hovering, an empty touch list makes the handler throw. *)
Lemma C5_counterexample :
  isHovering hoveringWorld = true /\
  dispatch demoClock demoRandom (TouchMove []) hoveringWorld =
  Throw TypeError hoveringWorld.
Proof. split; reflexivity. Qed.

(* A star is attached at a clock reading of 1001, and 1002 is stored. *)
Lemma C6_counterexample :
  let now := demoClock (clockReads hoveringWorld) in
  let w' := worldOf (handleOnMove demoClock demoRandom
                                  (Some (mkPointer 150 0)) hoveringWorld) in
  isHovering hoveringWorld = true /\
  spawned hoveringWorld w' /\
  now = 1001 /\
  starTimestamp (last w') = 1002 /\
  starTimestamp (last w') <> now.
Proof.
  cbv zeta. split; [reflexivity | ]. split.
  - eexists. vm_compute. reflexivity.
  - split; [reflexivity | ]. split; [reflexivity | ].
    vm_compute. discriminate.
Qed.

Lemma C6_witness :
  isHovering hoveringWorld = true /\
  spawned hoveringWorld
          (worldOf (handleOnMove demoClock demoRandom
                                 (Some (mkPointer 150 0)) hoveringWorld)) /\
  starTimestamp
    (last (worldOf (handleOnMove demoClock demoRandom
                                 (Some (mkPointer 150 0)) hoveringWorld))) =
  demoClock (S (clockReads hoveringWorld)).
Proof.
  assert (Hs : spawned hoveringWorld
                 (worldOf (handleOnMove demoClock demoRandom
                                        (Some (mkPointer 150 0)) hoveringWorld))).
  { eexists. vm_compute. reflexivity. }
  split; [reflexivity | ]. split; [exact Hs | ].
  exact (proj1 (proj2 (C6_timestamp_is_second_reading demoClock demoRandom
                         (mkPointer 150 0) hoveringWorld eq_refl Hs))).
Defined.

(* The star of oneStarWorld has its removal pending; once banner has lost
   its children, the callback throws. *)
Lemma C7_counterexample :
  In (mkTimer 3000 0) (timers oneStarWorld) /\
  In 0%nat (childIds oneStarWorld) /\
  dispatch demoClock demoRandom (TimerFires 0) (clearBanner oneStarWorld) =
  Throw NotFoundError
        (worldOf (dispatch demoClock demoRandom (TimerFires 0)
                           (clearBanner oneStarWorld))) /\
  returns (dispatch demoClock demoRandom (TimerFires 0)
                    (clearBanner oneStarWorld)) = false.
Proof.
  split; [left; reflexivity | ]. split; [left; reflexivity | ].
  split; reflexivity.
Qed.

Lemma C7_witness :
  In 0%nat (childIds oneStarWorld) /\
  returns (dispatch demoClock demoRandom (TimerFires 0) oneStarWorld) = true.
Proof.
  assert (Hin : In 0%nat (childIds oneStarWorld)) by (left; reflexivity).
  split; [exact Hin | ].
  exact (proj2 (proj1 (C7_removal_needs_membership demoClock demoRandom
                         0%nat oneStarWorld)) Hin).
Defined.

Lemma C9_witness :
  isHovering oneStarWorld = true /\
  handleOnMove demoClock demoRandom (Some (mkPointer 160 0))
               (withMousePosition originPosition oneStarWorld) =
  handleOnMove demoClock demoRandom (Some (mkPointer 160 0))
               (withMousePosition (mkPosition 900 900) oneStarWorld).
Proof.
  split; [reflexivity | ].
  exact (proj1 (C9_decision_ignores_pointer_position demoClock demoRandom
                  (mkPointer 160 0) originPosition (mkPosition 900 900)
                  oneStarWorld eq_refl)).
Defined.


(** ** Further properties: the helpers *)

Section Helpers.

Variable random : nat -> Q.

(* What selectRandom computes, in terms of pick. *)
Lemma selectRandom_run {A} (items : list A) (w : World) :
  selectRandom random items w =
  Ok (pick items (random (randomReads w)))
     (setRandomReads (S (randomReads w)) w).
Proof. reflexivity. Qed.

(** X1.  With Math.random() a binary64 in [0,1) and min <= max, both
    below 2^52 in magnitude, rand(min, max) returns an integer between
    min and max, both included, and reads the random source once: the
    rounding of the binary64 product never carries it up to
    max - min + 1. *)
Theorem rand_within_bounds (min max : Z) (w : World) :
  min <= max -> - 2 ^ 52 <= min -> max <= 2 ^ 52 ->
  isBinary64 (random (randomReads w)) = true ->
  (0 <= random (randomReads w))%Q -> (random (randomReads w) < 1)%Q ->
  exists v,
    rand random min max w = Ok v (setRandomReads (S (randomReads w)) w) /\
    min <= v <= max.
Proof.
  intros Hmm _ _ Hb H0 H1.
  exists (Qfloor (mulBinary64 (random (randomReads w)) (max - min + 1)) + min).
  split; [reflexivity | ].
  assert (Hn : 1 <= max - min + 1) by lia.
  pose proof (floor_mulBinary64_range _ _ Hb H0 H1 Hn) as [Hlo Hhi].
  lia.
Qed.

(** X2.  selectRandom on an empty array returns undefined, whatever the
    random value; on a non-empty array, with Math.random() a binary64 in
    [0,1), it returns one of the items.  Either way it reads the random
    source once and does not throw. *)
Theorem selectRandom_member {A} (items : list A) (w : World) :
  let r := selectRandom random items w in
  worldOf r = setRandomReads (S (randomReads w)) w /\
  (items = [] -> r = Ok None (worldOf r)) /\
  (items <> [] ->
   isBinary64 (random (randomReads w)) = true ->
   (0 <= random (randomReads w))%Q -> (random (randomReads w) < 1)%Q ->
   exists a, r = Ok (Some a) (worldOf r) /\ In a items).
Proof.
  cbn zeta. rewrite selectRandom_run. cbn [worldOf].
  split; [reflexivity | ]. split.
  - intros ->. unfold pick, index.
    destruct (_ <? 0); [reflexivity | ].
    destruct (Z.to_nat _); reflexivity.
  - intros Hne Hb H0 H1.
    destruct (pick_defined items _ Hne Hb H0 H1) as [a [Ha Hin]].
    exists a. rewrite Ha. split; [reflexivity | exact Hin].
Qed.

(** X3.  With Math.random() a binary64 in [0,1), createStar attaches
    exactly one new node, to which it assigns the offsets of the given
    position, a colour and a glow string built from the same entry of
    config.colors, and a font size that is an entry of config.sizes; it
    schedules the removal of that node after 3000 and leaves the hover
    flag and the throttle state alone. *)
Theorem createStar_star_from_palettes (pos : Position) (w : World) :
  isBinary64 (random (randomReads w)) = true ->
  (0 <= random (randomReads w))%Q -> (random (randomReads w) < 1)%Q ->
  isBinary64 (random (S (randomReads w))) = true ->
  (0 <= random (S (randomReads w)))%Q -> (random (S (randomReads w)) < 1)%Q ->
  let w' := worldOf (createStar random pos w) in
  exists c s n,
    In c config.colors /\ In s config.sizes /\
    createStar random pos w = Ok tt w' /\
    children w' = children w ++ [n] /\
    nodeId n = nextNode w /\
    className (nodeStar n) = "fa-solid fa-star star"%string /\
    left (nodeStar n) = px (x pos) /\
    top (nodeStar n) = px (y pos) /\
    fontSize (nodeStar n) = Some s /\
    color (nodeStar n) = ("rgb(" ++ c ++ ")")%string /\
    textShadow (nodeStar n) = ("0px 0px 1.5rem rgb(" ++ c ++ " / 0.5)")%string /\
    timers w' = timers w ++ [mkTimer 3000 (nextNode w)] /\
    last w' = last w /\ isHovering w' = isHovering w.
Proof.
  intros Hb1 H0 H1 Hb2 H2 H3 w'.
  assert (Hc : config.colors <> []) by discriminate.
  assert (Hs : config.sizes <> []) by discriminate.
  destruct (pick_defined config.colors _ Hc Hb1 H0 H1) as [c [Hpc Hinc]].
  destruct (pick_defined config.sizes _ Hs Hb2 H2 H3) as [s [Hps Hins]].
  exists c, s,
    (starNode (nextNode w) pos (random (randomReads w))
              (random (S (randomReads w)))).
  unfold w'. rewrite createStar_run. unfold starNode.
  cbn [worldOf children timers last isHovering nodeId nodeStar className left
       top fontSize color textShadow].
  rewrite Hpc, Hps. cbn [show].
  repeat split; assumption.
Qed.

End Helpers.

(** ** Further properties: distance and offsets *)

Lemma squaredDistance_nonneg (a b : Position) : 0 <= squaredDistance a b.
Proof. unfold squaredDistance. cbv zeta. nia. Qed.

Lemma calcDistance_squared (a b : Position) :
  calcDistance a b = sqrt (IZR (squaredDistance a b)).
Proof.
  unfold calcDistance, squaredDistance. cbv zeta.
  rewrite plus_IZR, !pow_IZR. reflexivity.
Qed.

Lemma squaredDistance_zero (a b : Position) :
  squaredDistance a b = 0 <-> a = b.
Proof.
  destruct a as [ax ay], b as [bx by_]. unfold squaredDistance.
  cbn [x y]. cbv zeta. rewrite !Z.pow_2_r. split.
  - intros H.
    pose proof (Z.square_nonneg (bx - ax)) as Hu.
    pose proof (Z.square_nonneg (by_ - ay)) as Hv.
    assert (Hu0 : (bx - ax) * (bx - ax) = 0) by lia.
    assert (Hv0 : (by_ - ay) * (by_ - ay) = 0) by lia.
    apply Z.mul_eq_0 in Hu0. apply Z.mul_eq_0 in Hv0.
    f_equal; lia.
  - intros H. injection H as -> ->. rewrite !Z.sub_diag. reflexivity.
Qed.

(** X4.  calcDistance is a distance: it does not depend on the order of
    its two arguments, it is never negative, and it is zero exactly when
    the two positions are equal.  Accordingly the distance test of the
    handler is symmetric and fails on a sample at the last star position. *)
Theorem calcDistance_symmetric_zero_iff_equal (a b : Position) :
  calcDistance a b = calcDistance b a /\
  (0 <= calcDistance a b)%R /\
  (calcDistance a b = 0%R <-> a = b) /\
  hasMovedFarEnough a b = hasMovedFarEnough b a /\
  hasMovedFarEnough a a = false.
Proof.
  assert (Hsym : squaredDistance a b = squaredDistance b a).
  { unfold squaredDistance. cbv zeta. nia. }
  split; [rewrite !calcDistance_squared, Hsym; reflexivity | ].
  split; [rewrite calcDistance_squared; apply sqrt_pos | ].
  split; [ | split].
  - rewrite calcDistance_squared. rewrite <- squaredDistance_zero. split.
    + intros H. apply sqrt_eq_0 in H.
      * apply eq_IZR. exact H.
      * apply IZR_le. apply squaredDistance_nonneg.
    + intros ->. apply sqrt_0.
  - unfold hasMovedFarEnough. rewrite Hsym. reflexivity.
  - unfold hasMovedFarEnough.
    rewrite (proj2 (squaredDistance_zero a a) eq_refl). reflexivity.
Qed.

(* Appending the same suffix to two strings keeps them apart. *)
Lemma string_length_append (s t : string) :
  String.length (s ++ t) = (String.length s + String.length t)%nat.
Proof. induction s as [ | c s IH]; cbn; [reflexivity | rewrite IH; reflexivity]. Qed.

Lemma string_append_cancel_r (s1 s2 t : string) :
  (s1 ++ t)%string = (s2 ++ t)%string -> s1 = s2.
Proof.
  revert s2. induction s1 as [ | c1 s1 IH]; intros [ | c2 s2] H; cbn in H.
  - reflexivity.
  - apply (f_equal String.length) in H. cbn in H.
    rewrite string_length_append in H. lia.
  - apply (f_equal String.length) in H. cbn in H.
    rewrite string_length_append in H. lia.
  - injection H as -> H. f_equal. apply IH. exact H.
Qed.

(** X6.  withUnit (hence px and ms) never maps two different numbers to
    the same string: the offsets written on a star determine the position
    it was created at. *)
Theorem withUnit_injective (a b : Z) (unit : string) :
  withUnit a unit = withUnit b unit <-> a = b.
Proof.
  split; [ | intros ->; reflexivity].
  unfold withUnit, numberToString. intros H.
  apply string_append_cancel_r in H.
  apply DecimalZ.to_int_inj.
  pose proof (NilEmpty.isi (Z.to_int a)) as Ha.
  rewrite H, NilEmpty.isi in Ha. injection Ha as Ha. symmetry. exact Ha.
Qed.

(** ** Further properties: runs of the script *)

(* The world a hovering sample leaves when the test fails. *)
Definition afterMiss (p : Pointer) (w : World) : World :=
  {| isHovering := true;
     last := {| starTimestamp := starTimestamp (last w);
                starPosition := starPosition (last w);
                mousePosition := sample p |};
     children := children w;
     timers := timers w;
     nextNode := nextNode w;
     clockReads := S (clockReads w);
     randomReads := randomReads w |}.

(* The world a hovering sample leaves when the test succeeds. *)
Definition afterHit (clock : nat -> Z) (random : nat -> Q)
           (p : Pointer) (w : World) : World :=
  {| isHovering := true;
     last := {| starTimestamp := clock (S (clockReads w));
                starPosition := sample p;
                mousePosition := sample p |};
     children :=
       children w ++
       [starNode (nextNode w) (sample p)
                 (random (randomReads w)) (random (S (randomReads w)))];
     timers := timers w ++ [mkTimer 3000 (nextNode w)];
     nextNode := S (nextNode w);
     clockReads := S (S (clockReads w));
     randomReads := S (S (randomReads w)) |}.

(* The world a removal callback leaves. *)
Definition afterRemoval (element : nat) (w : World) : World :=
  let w1 := setTimers
              (filter (fun t => negb (Nat.eqb (timerElement t) element))
                      (timers w)) w in
  if existsb (fun n => Nat.eqb (nodeId n) element) (children w)
  then setChildren
         (filter (fun n => negb (Nat.eqb (nodeId n) element)) (children w)) w1
  else w1.

(* A pointer-move event, mouse or touch. *)
Definition isMove (ev : Event) : bool :=
  match ev with
  | MouseMove _ | TouchMove _ => true
  | _ => false
  end.

(* The hover flag after a list of events, read off the banner events. *)
Fixpoint hoverAfter (evs : list Event) (b : bool) : bool :=
  match evs with
  | [] => b
  | BannerMouseEnter :: evs' => hoverAfter evs' true
  | BannerMouseLeave :: evs' => hoverAfter evs' false
  | _ :: evs' => hoverAfter evs' b
  end.

(* The positions of the samples carried by a list of events. *)
Fixpoint samples (evs : list Event) : list Position :=
  match evs with
  | [] => []
  | MouseMove e :: evs' => sample e :: samples evs'
  | TouchMove (t :: _) :: evs' => sample t :: samples evs'
  | _ :: evs' => samples evs'
  end.

Section Runs.

Variable clock : nat -> Z.
Variable random : nat -> Q.

(** *** The world after each handler *)

Lemma handleOnMove_world (e : option Pointer) (w : World) :
  worldOf (handleOnMove clock random e w) =
  match e with
  | Some p =>
      if isHovering w
      then if shouldSpawn (last w) (sample p) (clock (clockReads w))
           then afterHit clock random p w
           else afterMiss p w
      else w
  | None => w
  end.
Proof.
  destruct (isHovering w) eqn:Hh.
  - destruct e as [p | ].
    + destruct (shouldSpawn (last w) (sample p) (clock (clockReads w))) eqn:Hd.
      * rewrite (handleOnMove_hit clock random p w Hh Hd). reflexivity.
      * rewrite (handleOnMove_miss clock random p w Hh Hd). reflexivity.
    + rewrite (handleOnMove_undefined clock random w Hh). reflexivity.
  - rewrite (handleOnMove_idle clock random e w Hh). destruct e; reflexivity.
Qed.

Lemma removalCallback_world (element : nat) (w : World) :
  worldOf (removalCallback element w) = afterRemoval element w.
Proof.
  unfold removalCallback, afterRemoval, bind, modify, removeChild.
  cbn [children setTimers].
  destruct (existsb _ (children w)); reflexivity.
Qed.

Lemma dispatch_world (ev : Event) (w : World) :
  worldOf (dispatch clock random ev w) =
  match ev with
  | BannerMouseEnter => setHovering true w
  | BannerMouseLeave => setHovering false w
  | MouseMove e => worldOf (handleOnMove clock random (Some e) w)
  | TouchMove touches =>
      worldOf (handleOnMove clock random (nth_error touches 0) w)
  | BodyMouseLeave => withMousePosition originPosition w
  | TimerFires element => afterRemoval element w
  end.
Proof.
  destruct ev; try reflexivity. apply removalCallback_world.
Qed.

(* A property kept by every handler holds throughout a run.  It is enough
   to check it on the six kinds of world a handler can leave. *)
Lemma run_invariant (P : World -> Prop) :
  (forall b w, P w -> P (setHovering b w)) ->
  (forall p w, isHovering w = true ->
               shouldSpawn (last w) (sample p) (clock (clockReads w)) = false ->
               P w -> P (afterMiss p w)) ->
  (forall p w, isHovering w = true ->
               shouldSpawn (last w) (sample p) (clock (clockReads w)) = true ->
               P w -> P (afterHit clock random p w)) ->
  (forall w, P w -> P (withMousePosition originPosition w)) ->
  (forall element w, P w -> P (afterRemoval element w)) ->
  forall evs w, P w -> P (run clock random evs w).
Proof.
  intros Hhov Hmiss Hhit Hleave Hrem.
  assert (Hmove : forall e w, P w ->
                              P (worldOf (handleOnMove clock random e w))).
  { intros e w Hw. rewrite handleOnMove_world.
    destruct e as [p | ]; [ | exact Hw].
    destruct (isHovering w) eqn:Hh; [ | exact Hw].
    destruct (shouldSpawn (last w) (sample p) (clock (clockReads w))) eqn:Hd.
    - apply Hhit; assumption.
    - apply Hmiss; assumption. }
  induction evs as [ | ev evs IH]; intros w Hw; [exact Hw | ].
  cbn [run]. apply IH. rewrite dispatch_world.
  destruct ev; auto.
Qed.

End Runs.

(** *** What every run keeps *)

(* The bookkeeping of stars: the pending removals are those of the
   children, in the same order and with the delay 3000; node identities
   are distinct and below the next one; two random values were drawn per
   node created. *)
Definition consistent (w : World) : Prop :=
  map timerElement (timers w) = childIds w /\
  Forall (fun t => timerDelay t = 3000) (timers w) /\
  NoDup (childIds w) /\
  Forall (fun i => (i < nextNode w)%nat) (childIds w) /\
  randomReads w = (2 * nextNode w)%nat.

Lemma filter_keeps_all {A} (f : A -> bool) (l : list A) :
  (forall a, In a l -> f a = true) -> filter f l = l.
Proof.
  induction l as [ | a l IH]; intros H; [reflexivity | ].
  cbn. rewrite (H a (or_introl eq_refl)). f_equal.
  apply IH. intros b Hb. apply H. right. exact Hb.
Qed.

Lemma Forall_filter_keeps {A} (P : A -> Prop) (f : A -> bool) (l : list A) :
  Forall P l -> Forall P (filter f l).
Proof.
  rewrite !Forall_forall. intros H a Ha. apply filter_In in Ha.
  apply H. exact (proj1 Ha).
Qed.

(* Removing the only occurrence of an identity shortens the list by one. *)
Lemma filter_out_one (e : nat) (l : list nat) :
  NoDup l -> In e l ->
  S (List.length (filter (fun i => negb (Nat.eqb i e)) l)) = List.length l.
Proof.
  induction l as [ | a l IH]; intros Hnd Hin; [contradiction | ].
  inversion Hnd as [ | a' l' Hna Hnd']; subst.
  cbn [filter]. destruct (Nat.eqb a e) eqn:Hae.
  - apply Nat.eqb_eq in Hae. subst a. cbn [negb List.length]. f_equal.
    f_equal. apply filter_keeps_all. intros b Hb.
    apply negb_true_iff, Nat.eqb_neq. intros ->. contradiction.
  - cbn [negb List.length]. f_equal. apply IH; [exact Hnd' | ].
    destruct Hin as [-> | Hin]; [ | exact Hin].
    rewrite Nat.eqb_refl in Hae. discriminate.
Qed.

Lemma childIds_filter (e : nat) (l : list Node) :
  map nodeId (filter (fun n => negb (Nat.eqb (nodeId n) e)) l) =
  filter (fun i => negb (Nat.eqb i e)) (map nodeId l).
Proof. symmetry. apply filter_map_swap. Qed.

Lemma timerElements_filter (e : nat) (l : list Timer) :
  map timerElement (filter (fun t => negb (Nat.eqb (timerElement t) e)) l) =
  filter (fun i => negb (Nat.eqb i e)) (map timerElement l).
Proof. symmetry. apply filter_map_swap. Qed.

Lemma afterRemoval_consistent (element : nat) (w : World) :
  consistent w -> consistent (afterRemoval element w).
Proof.
  unfold consistent, childIds. intros [Hm [Hd [Hnd [Hlt Hr]]]].
  unfold afterRemoval. cbv zeta.
  destruct (existsb (fun n => Nat.eqb (nodeId n) element) (children w)) eqn:He;
    cbn [timers children nextNode randomReads setChildren setTimers].
  - rewrite childIds_filter, timerElements_filter, Hm.
    repeat split; try assumption.
    + apply Forall_filter_keeps. exact Hd.
    + apply NoDup_filter. exact Hnd.
    + apply Forall_filter_keeps. exact Hlt.
  - assert (Hn : ~ In element (map nodeId (children w))).
    { intros Hin. apply existsb_nodeId in Hin. congruence. }
    rewrite timerElements_filter, Hm.
    rewrite filter_keeps_all.
    + repeat split; try assumption. apply Forall_filter_keeps. exact Hd.
    + intros i Hi. apply negb_true_iff, Nat.eqb_neq. intros ->. contradiction.
Qed.

Lemma afterHit_consistent (clock : nat -> Z) (random : nat -> Q)
      (p : Pointer) (w : World) :
  consistent w -> consistent (afterHit clock random p w).
Proof.
  unfold consistent, childIds. intros [Hm [Hd [Hnd [Hlt Hr]]]].
  cbn [afterHit timers children nextNode randomReads].
  rewrite !map_app. cbn [map starNode nodeId timerElement].
  repeat split.
  - rewrite Hm. reflexivity.
  - apply Forall_app. split; [exact Hd | ]. repeat constructor.
  - apply NoDup_app; [exact Hnd | repeat constructor; intros [] | ].
    intros i Hi [<- | []].
    rewrite Forall_forall in Hlt. specialize (Hlt _ Hi). lia.
  - apply Forall_app. split.
    + eapply Forall_impl; [ | exact Hlt]. cbn. intros i Hi. lia.
    + repeat constructor.
  - rewrite Hr. lia.
Qed.

Lemma run_consistent (clock : nat -> Z) (random : nat -> Q)
      (evs : list Event) (w : World) :
  consistent w -> consistent (run clock random evs w).
Proof.
  apply run_invariant.
  - intros b w0 H. exact H.
  - intros p w0 _ _ H. exact H.
  - intros p w0 _ _ H. apply afterHit_consistent. exact H.
  - intros w0 H. exact H.
  - intros e w0 H. apply afterRemoval_consistent. exact H.
Qed.

Lemma initial_consistent (clock : nat -> Z) : consistent (initial clock).
Proof.
  unfold consistent, childIds. cbn.
  repeat split; constructor.
Qed.

Lemma reachable_consistent (clock : nat -> Z) (random : nat -> Q)
      (evs : list Event) :
  consistent (run clock random evs (initial clock)).
Proof. apply run_consistent, initial_consistent. Qed.


Section Reachable.

Variable clock : nat -> Z.
Variable random : nat -> Q.

(** X7.  After any sequence of events from the loaded script, the pending
    removals are exactly those of the stars attached to banner, in the
    same order: every pending removal has the delay 3000 and targets a
    child of banner, and every child has its removal pending. *)
Theorem removals_mirror_children (evs : list Event) :
  let w := run clock random evs (initial clock) in
  map timerElement (timers w) = childIds w /\
  (forall t, In t (timers w) ->
             timerDelay t = 3000 /\ In (timerElement t) (childIds w)) /\
  (forall n, In n (children w) -> In (mkTimer 3000 (nodeId n)) (timers w)).
Proof.
  cbn zeta.
  destruct (reachable_consistent clock random evs) as [Hm [Hd _]].
  split; [exact Hm | ]. split.
  - intros t Ht. split.
    + rewrite Forall_forall in Hd. apply Hd. exact Ht.
    + rewrite <- Hm. apply in_map. exact Ht.
  - intros n Hn.
    assert (Hin : In (nodeId n) (map timerElement
                       (timers (run clock random evs (initial clock))))).
    { rewrite Hm. apply in_map. exact Hn. }
    apply in_map_iff in Hin. destruct Hin as [t [Ht Hin]].
    rewrite Forall_forall in Hd. pose proof (Hd t Hin) as Hdel.
    destruct t as [d e]. cbn in Ht, Hdel. subst. exact Hin.
Qed.

(** X8.  After any sequence of events from the loaded script, the stars
    attached to banner have pairwise distinct identities, all created
    earlier; banner never holds more stars than were created, and exactly
    two random values have been drawn per star created. *)
Theorem star_identities_distinct (evs : list Event) :
  let w := run clock random evs (initial clock) in
  NoDup (childIds w) /\
  (forall i, In i (childIds w) -> (i < nextNode w)%nat) /\
  (List.length (children w) <= nextNode w)%nat /\
  randomReads w = (2 * nextNode w)%nat.
Proof.
  cbn zeta.
  destruct (reachable_consistent clock random evs) as [_ [_ [Hnd [Hlt Hr]]]].
  rewrite Forall_forall in Hlt.
  split; [exact Hnd | ]. split; [exact Hlt | ]. split; [ | exact Hr].
  unfold childIds in Hnd, Hlt.
  set (w := run clock random evs (initial clock)) in *.
  assert (Hle : (List.length (map nodeId (children w)) <=
                 List.length (seq 0 (nextNode w)))%nat).
  { apply NoDup_incl_length; [exact Hnd | ].
    intros i Hi. apply in_seq. specialize (Hlt i Hi). lia. }
  rewrite length_map, length_seq in Hle. exact Hle.
Qed.

(** X9.  After any sequence of events from the loaded script, a pending
    removal that fires returns normally; it detaches exactly one star,
    the one it was scheduled for, and is no longer pending. *)
Theorem pending_removal_succeeds (evs : list Event) (t : Timer) :
  let w := run clock random evs (initial clock) in
  In t (timers w) ->
  let r := dispatch clock random (TimerFires (timerElement t)) w in
  r = Ok tt (worldOf r) /\
  S (List.length (children (worldOf r))) = List.length (children w) /\
  ~ In (timerElement t) (childIds (worldOf r)) /\
  ~ In t (timers (worldOf r)) /\
  last (worldOf r) = last w.
Proof.
  cbn zeta. intros Ht.
  destruct (reachable_consistent clock random evs) as [Hm [_ [Hnd _]]].
  set (w := run clock random evs (initial clock)) in *.
  assert (Hin : In (timerElement t) (map nodeId (children w))).
  { fold (childIds w). rewrite <- Hm. apply in_map. exact Ht. }
  pose proof Hin as He. apply existsb_nodeId in He.
  unfold dispatch, removalCallback, bind, modify, removeChild.
  cbn [children setTimers]. rewrite He. cbn [worldOf].
  split; [reflexivity | ].
  unfold childIds. cbn [children timers last setChildren setTimers].
  split; [ | split; [ | split; [ | reflexivity]]].
  - rewrite <- (length_map nodeId), childIds_filter.
    rewrite <- (length_map nodeId (children w)).
    apply filter_out_one; assumption.
  - rewrite childIds_filter. intros H. apply filter_In in H.
    destruct H as [_ H]. rewrite Nat.eqb_refl in H. discriminate.
  - intros H. apply filter_In in H.
    destruct H as [_ H]. rewrite Nat.eqb_refl in H. discriminate.
Qed.

End Reachable.

Section Faults.

Variable clock : nat -> Z.
Variable random : nat -> Q.


End Faults.

Section Throttle.

Variable clock : nat -> Z.
Variable random : nat -> Q.

Lemma clock_monotone (k m : nat) :
  (forall n, clock n <= clock (S n)) -> (k <= m)%nat -> clock k <= clock m.
Proof.
  intros Hmono Hkm. induction Hkm as [ | m Hkm IH]; [lia | ].
  specialize (Hmono m). lia.
Qed.

(** X11.  Two stars created one after the other are never both close in
    space and close in time: with a clock that does not go back, the new
    star is at least 100 away from the previous one, or its stored
    timestamp is more than 200 after the previous one. *)
Theorem consecutive_stars_apart (p : Pointer) (w : World) :
  isHovering w = true ->
  (forall n, clock n <= clock (S n)) ->
  let w' := worldOf (handleOnMove clock random (Some p) w) in
  spawned w w' ->
  (100 <= calcDistance (starPosition (last w)) (starPosition (last w')))%R \/
  200 < starTimestamp (last w') - starTimestamp (last w).
Proof.
  intros Hh Hmono w' Hs. unfold w' in *.
  destruct (shouldSpawn (last w) (sample p) (clock (clockReads w))) eqn:Hd.
  - rewrite (handleOnMove_hit clock random p w Hh Hd).
    cbn [worldOf last starPosition starTimestamp].
    apply shouldSpawn_spec in Hd.
    change (IZR config.minimumDistanceBetweenStars) with 100%R in Hd.
    change config.minimumTimeBetweenStars with 200 in Hd.
    unfold calcElapsedTime in Hd.
    destruct Hd as [Hd | Hd]; [left; exact Hd | right].
    specialize (Hmono (clockReads w)). lia.
  - exfalso. rewrite (handleOnMove_miss clock random p w Hh Hd) in Hs.
    exact (spawned_grows _ _ Hs eq_refl).
Qed.

(* The stored timestamp is one of the clock readings made so far. *)
Definition stamped (w : World) : Prop :=
  exists k, (k < clockReads w)%nat /\ starTimestamp (last w) = clock k.

Lemma run_stamped (evs : list Event) (w : World) :
  stamped w -> stamped (run clock random evs w).
Proof.
  apply run_invariant; unfold stamped.
  - intros b w0 H. exact H.
  - intros p w0 _ _ [k [Hk Hs]]. exists k. cbn. split; [lia | exact Hs].
  - intros p w0 _ _ _. exists (S (clockReads w0)). cbn. split; [lia | reflexivity].
  - intros w0 H. exact H.
  - intros e w0 [k [Hk Hs]]. exists k. unfold afterRemoval. cbv zeta.
    destruct (existsb _ (children w0)); cbn; split; assumption.
Qed.

(** X12.  After any sequence of events from the loaded script, the stored
    timestamp is a value the clock returned at an earlier reading; with a
    clock that does not go back, the elapsed time the next sample
    computes is never negative. *)
Theorem stored_timestamp_is_past_reading (evs : list Event) :
  let w := run clock random evs (initial clock) in
  (exists k, (k < clockReads w)%nat /\ starTimestamp (last w) = clock k) /\
  ((forall n, clock n <= clock (S n)) ->
   0 <= calcElapsedTime (starTimestamp (last w)) (clock (clockReads w))).
Proof.
  cbn zeta.
  assert (Hs : stamped (run clock random evs (initial clock))).
  { apply run_stamped. exists 0%nat. split; [cbn; lia | reflexivity]. }
  split; [exact Hs | ].
  intros Hmono. destruct Hs as [k [Hk Hs]]. rewrite Hs.
  unfold calcElapsedTime.
  assert (clock k <= clock (clockReads (run clock random evs (initial clock)))).
  { apply clock_monotone; [exact Hmono | lia]. }
  lia.
Qed.

(* Without the pointer entering banner, a run creates nothing. *)
Definition entersBanner (ev : Event) : bool :=
  match ev with BannerMouseEnter => true | _ => false end.

(** X13.  Once the pointer is outside banner, nothing spawns until it
    enters again: whatever the events in between (moves, touches, document
    leave, removals), no node is created, the clock and the random source
    are not read, and the last star position and time stay as they are. *)
Theorem no_star_until_banner_entered (evs : list Event) (w : World) :
  isHovering w = false ->
  existsb entersBanner evs = false ->
  let w' := run clock random evs w in
  isHovering w' = false /\
  nextNode w' = nextNode w /\
  clockReads w' = clockReads w /\
  randomReads w' = randomReads w /\
  starPosition (last w') = starPosition (last w) /\
  starTimestamp (last w') = starTimestamp (last w) /\
  (forall n, In n (children w') -> In n (children w)).
Proof.
  revert w. induction evs as [ | ev evs IH]; intros w Hh Hev.
  - cbn. repeat split; try reflexivity; try assumption. intros n H. exact H.
  - cbn [existsb] in Hev. apply orb_false_iff in Hev. destruct Hev as [Hev Hevs].
    cbn [run]. cbv zeta.
    set (w1 := worldOf (dispatch clock random ev w)).
    assert (H1 : isHovering w1 = false /\ nextNode w1 = nextNode w /\
                 clockReads w1 = clockReads w /\
                 randomReads w1 = randomReads w /\
                 starPosition (last w1) = starPosition (last w) /\
                 starTimestamp (last w1) = starTimestamp (last w) /\
                 (forall n, In n (children w1) -> In n (children w))).
    { unfold w1. rewrite dispatch_world.
      destruct ev as [ | | e | touches | | element]; try discriminate.
      - cbn. repeat split; try assumption. intros n H; exact H.
      - rewrite (handleOnMove_idle clock random (Some e) w Hh). cbn.
        repeat split; try assumption. intros n H; exact H.
      - rewrite (handleOnMove_idle clock random _ w Hh). cbn.
        repeat split; try assumption. intros n H; exact H.
      - cbn. repeat split; try assumption. intros n H; exact H.
      - unfold afterRemoval. cbv zeta.
        destruct (existsb _ (children w)); cbn;
          repeat split; try assumption.
        + intros n H. apply filter_In in H. exact (proj1 H).
        + intros n H. exact H. }
    destruct H1 as [Hh1 [Hn1 [Hc1 [Hr1 [Hp1 [Ht1 Hch1]]]]]].
    destruct (IH w1 Hh1 Hevs) as [Hh2 [Hn2 [Hc2 [Hr2 [Hp2 [Ht2 Hch2]]]]]].
    repeat split; try congruence.
    intros n H. apply Hch1, Hch2. exact H.
Qed.

(** X14.  The hover flag after a run is the one set by the last banner
    mouseenter or mouseleave event of the run, or the initial one when
    there is none: no other handler, throwing or not, changes it. *)
Theorem hover_flag_follows_banner_events (evs : list Event) (w : World) :
  isHovering (run clock random evs w) = hoverAfter evs (isHovering w).
Proof.
  revert w. induction evs as [ | ev evs IH]; intros w; [reflexivity | ].
  cbn [run]. rewrite IH.
  assert (Hmove : forall e, isHovering
                              (worldOf (handleOnMove clock random e w)) =
                            isHovering w).
  { intros e. rewrite handleOnMove_world. destruct e as [p | ]; [ | reflexivity].
    destruct (isHovering w) eqn:Hh; [ | exact Hh].
    destruct (shouldSpawn _ _ _); reflexivity. }
  rewrite dispatch_world.
  destruct ev as [ | | e | touches | | element]; cbn [hoverAfter].
  - reflexivity.
  - reflexivity.
  - rewrite Hmove. reflexivity.
  - rewrite Hmove. reflexivity.
  - reflexivity.
  - unfold afterRemoval. cbv zeta.
    destruct (existsb _ (children w)); reflexivity.
Qed.

(** X15.  A run creates at most one star per pointer-move event it
    contains. *)
Theorem at_most_one_star_per_move (evs : list Event) (w : World) :
  (nextNode (run clock random evs w) <=
   nextNode w + List.length (filter isMove evs))%nat.
Proof.
  revert w. induction evs as [ | ev evs IH]; intros w; [cbn; lia | ].
  cbn [run]. specialize (IH (worldOf (dispatch clock random ev w))).
  assert (Hmove : forall e, (nextNode
                               (worldOf (handleOnMove clock random e w)) <=
                             S (nextNode w))%nat).
  { intros e. rewrite handleOnMove_world. destruct e as [p | ]; [ | lia].
    destruct (isHovering w); [ | lia].
    destruct (shouldSpawn _ _ _); cbn; lia. }
  rewrite dispatch_world in IH |- *.
  destruct ev as [ | | e | touches | | element]; cbn [filter isMove List.length].
  - exact IH.
  - exact IH.
  - specialize (Hmove (Some e)). lia.
  - specialize (Hmove (nth_error touches 0)). lia.
  - exact IH.
  - unfold afterRemoval in IH |- *. cbv zeta in IH |- *.
    destruct (existsb _ (children w)); exact IH.
Qed.

(** X16.  The positions kept in the throttle state are never invented:
    after a run, the last star position is the one before the run or the
    position of a sample of the run, and the last pointer position is the
    one before the run, the origin, or the position of a sample of the
    run. *)
Theorem stored_positions_come_from_samples (evs : list Event) (w : World) :
  let w' := run clock random evs w in
  (starPosition (last w') = starPosition (last w) \/
   In (starPosition (last w')) (samples evs)) /\
  (mousePosition (last w') = mousePosition (last w) \/
   mousePosition (last w') = originPosition \/
   In (mousePosition (last w')) (samples evs)).
Proof.
  cbn zeta. revert w. induction evs as [ | ev evs IH]; intros w.
  - cbn. split; left; reflexivity.
  - cbn [run]. specialize (IH (worldOf (dispatch clock random ev w))).
    assert (Hmove : forall p,
               let w1 := worldOf (handleOnMove clock random (Some p) w) in
               (starPosition (last w1) = starPosition (last w) \/
                starPosition (last w1) = sample p) /\
               (mousePosition (last w1) = mousePosition (last w) \/
                mousePosition (last w1) = sample p)).
    { intros p. cbn zeta. rewrite handleOnMove_world.
      destruct (isHovering w); [ | split; left; reflexivity].
      destruct (shouldSpawn _ _ _); cbn; split; auto. }
    rewrite dispatch_world in IH |- *. destruct IH as [IHs IHm].
    destruct ev as [ | | e | touches | | element].
    + cbn [samples]. exact (conj IHs IHm).
    + cbn [samples]. exact (conj IHs IHm).
    + cbn [samples]. destruct (Hmove e) as [Hs Hm].
      split.
      * destruct IHs as [IHs | IHs]; [ | right; right; exact IHs].
        rewrite IHs. destruct Hs as [Hs | Hs]; [left; exact Hs | ].
        right. left. symmetry. exact Hs.
      * destruct IHm as [IHm | [IHm | IHm]];
          [ | right; left; exact IHm | right; right; right; exact IHm].
        rewrite IHm. destruct Hm as [Hm | Hm]; [left; exact Hm | ].
        right. right. left. symmetry. exact Hm.
    + destruct touches as [ | t rest].
      * cbn [nth_error samples] in *.
        rewrite handleOnMove_world in IHs, IHm |- *. exact (conj IHs IHm).
      * cbn [nth_error samples] in *. destruct (Hmove t) as [Hs Hm].
        split.
        -- destruct IHs as [IHs | IHs]; [ | right; right; exact IHs].
           rewrite IHs. destruct Hs as [Hs | Hs]; [left; exact Hs | ].
           right. left. symmetry. exact Hs.
        -- destruct IHm as [IHm | [IHm | IHm]];
             [ | right; left; exact IHm | right; right; right; exact IHm].
           rewrite IHm. destruct Hm as [Hm | Hm]; [left; exact Hm | ].
           right. right. left. symmetry. exact Hm.
    + cbn [samples].
      split; [exact IHs | ].
      destruct IHm as [IHm | IHm]; [right; left; exact IHm | right; exact IHm].
    + cbn [samples].
      assert (Hl : last (afterRemoval element w) = last w).
      { unfold afterRemoval. cbv zeta.
        destruct (existsb _ (children w)); reflexivity. }
      rewrite Hl in IHs, IHm. exact (conj IHs IHm).
Qed.

End Throttle.

(** ** Concrete runs for the further properties *)

Lemma demoRandom_in_unit_interval (n : nat) :
  (0 <= demoRandom n)%Q /\ (demoRandom n < 1)%Q.
Proof.
  unfold demoRandom, Qle, Qlt. cbn [Qnum Qden].
  pose proof (Nat.mod_upper_bound n 4). lia.
Qed.

Lemma demoRandom_isBinary64 (n : nat) : isBinary64 (demoRandom n) = true.
Proof.
  unfold demoRandom, isBinary64. cbn [Qnum Qden].
  pose proof (Nat.mod_upper_bound n 4).
  apply andb_true_iff. split; [reflexivity | ].
  apply Z.ltb_lt. change (2 ^ 53) with 9007199254740992. lia.
Qed.

(* The product is the binary64 one: for Math.random() =
   6004799503160661 / 2^53 and three items, the exact product is just
   below 2 and binary64 rounds it to 2, so the third item is selected. *)
Example pick_rounds_as_binary64 :
  isBinary64 (6004799503160661 # 9007199254740992) = true /\
  Qfloor ((6004799503160661 # 9007199254740992) * inject_Z 3) = 1 /\
  Qfloor (mulBinary64 (6004799503160661 # 9007199254740992) 3) = 2 /\
  pick config.colors (6004799503160661 # 9007199254740992) =
  Some "231, 233, 235"%string.
Proof. repeat split. Qed.

(* 0.1 * 3 is 0.30000000000000004 in binary64. *)
Example mulBinary64_tenth_times_three :
  mulBinary64 (3602879701896397 # 36028797018963968) 3 =
  10808639105689192 # 36028797018963968.
Proof. reflexivity. Qed.

Lemma demoClock_monotone (n : nat) : demoClock n <= demoClock (S n).
Proof. unfold demoClock. lia. Qed.

Lemma rand_within_bounds_witness :
  2 <= 5 /\ - 2 ^ 52 <= 2 /\ 5 <= 2 ^ 52 /\
  isBinary64 (demoRandom (randomReads oneStarWorld)) = true /\
  exists v,
    rand demoRandom 2 5 oneStarWorld =
    Ok v (setRandomReads (S (randomReads oneStarWorld)) oneStarWorld) /\
    2 <= v <= 5.
Proof.
  assert (H : 2 <= 5) by lia.
  assert (Hlo : - 2 ^ 52 <= 2) by (apply Z.leb_le; reflexivity).
  assert (Hhi : 5 <= 2 ^ 52) by (apply Z.leb_le; reflexivity).
  split; [exact H | ]. split; [exact Hlo | ]. split; [exact Hhi | ].
  split; [reflexivity | ].
  exact (rand_within_bounds demoRandom 2 5 oneStarWorld H Hlo Hhi
           (demoRandom_isBinary64 _)
           (proj1 (demoRandom_in_unit_interval _))
           (proj2 (demoRandom_in_unit_interval _))).
Defined.

Lemma selectRandom_member_witness :
  config.sizes <> [] /\
  exists a,
    selectRandom demoRandom config.sizes oneStarWorld =
    Ok (Some a) (worldOf (selectRandom demoRandom config.sizes oneStarWorld)) /\
    In a config.sizes.
Proof.
  assert (H : config.sizes <> []) by discriminate.
  split; [exact H | ].
  exact (proj2 (proj2 (selectRandom_member demoRandom config.sizes oneStarWorld))
           H (demoRandom_isBinary64 _)
           (proj1 (demoRandom_in_unit_interval _))
           (proj2 (demoRandom_in_unit_interval _))).
Defined.

Lemma createStar_star_from_palettes_witness :
  exists c s n,
    In c config.colors /\ In s config.sizes /\
    createStar demoRandom (mkPosition 30 40) oneStarWorld =
    Ok tt (worldOf (createStar demoRandom (mkPosition 30 40) oneStarWorld)) /\
    children (worldOf (createStar demoRandom (mkPosition 30 40) oneStarWorld)) =
    children oneStarWorld ++ [n] /\
    nodeId n = nextNode oneStarWorld /\
    className (nodeStar n) = "fa-solid fa-star star"%string /\
    left (nodeStar n) = px 30 /\
    top (nodeStar n) = px 40 /\
    fontSize (nodeStar n) = Some s /\
    color (nodeStar n) = ("rgb(" ++ c ++ ")")%string /\
    textShadow (nodeStar n) = ("0px 0px 1.5rem rgb(" ++ c ++ " / 0.5)")%string /\
    timers (worldOf (createStar demoRandom (mkPosition 30 40) oneStarWorld)) =
    timers oneStarWorld ++ [mkTimer 3000 (nextNode oneStarWorld)] /\
    last (worldOf (createStar demoRandom (mkPosition 30 40) oneStarWorld)) =
    last oneStarWorld /\
    isHovering (worldOf (createStar demoRandom (mkPosition 30 40) oneStarWorld)) =
    isHovering oneStarWorld.
Proof.
  exact (createStar_star_from_palettes demoRandom (mkPosition 30 40) oneStarWorld
           (demoRandom_isBinary64 _)
           (proj1 (demoRandom_in_unit_interval _))
           (proj2 (demoRandom_in_unit_interval _))
           (demoRandom_isBinary64 _)
           (proj1 (demoRandom_in_unit_interval _))
           (proj2 (demoRandom_in_unit_interval _))).
Defined.

Lemma removals_mirror_children_witness :
  In (mkTimer 3000 0) (timers oneStarWorld) /\
  timerDelay (mkTimer 3000 0) = 3000 /\
  In (timerElement (mkTimer 3000 0)) (childIds oneStarWorld).
Proof.
  assert (H : In (mkTimer 3000 0) (timers oneStarWorld)) by (left; reflexivity).
  split; [exact H | ].
  exact (proj1 (proj2 (removals_mirror_children demoClock demoRandom
                         [BannerMouseEnter; MouseMove (mkPointer 150 0)]))
               (mkTimer 3000 0) H).
Defined.

Lemma star_identities_distinct_witness :
  In 0%nat (childIds oneStarWorld) /\ (0 < nextNode oneStarWorld)%nat.
Proof.
  assert (H : In 0%nat (childIds oneStarWorld)) by (left; reflexivity).
  split; [exact H | ].
  exact (proj1 (proj2 (star_identities_distinct demoClock demoRandom
                         [BannerMouseEnter; MouseMove (mkPointer 150 0)]))
               0%nat H).
Defined.

Lemma pending_removal_succeeds_witness :
  In (mkTimer 3000 0) (timers oneStarWorld) /\
  dispatch demoClock demoRandom (TimerFires 0) oneStarWorld =
  Ok tt (worldOf (dispatch demoClock demoRandom (TimerFires 0) oneStarWorld)).
Proof.
  assert (H : In (mkTimer 3000 0) (timers oneStarWorld)) by (left; reflexivity).
  split; [exact H | ].
  exact (proj1 (pending_removal_succeeds demoClock demoRandom
                  [BannerMouseEnter; MouseMove (mkPointer 150 0)]
                  (mkTimer 3000 0) H)).
Defined.


Lemma consecutive_stars_apart_witness :
  isHovering hoveringWorld = true /\
  ((100 <= calcDistance
             (starPosition (last hoveringWorld))
             (starPosition
                (last (worldOf (handleOnMove demoClock demoRandom
                                             (Some (mkPointer 150 0))
                                             hoveringWorld)))))%R \/
   200 < starTimestamp
           (last (worldOf (handleOnMove demoClock demoRandom
                                        (Some (mkPointer 150 0))
                                        hoveringWorld))) -
         starTimestamp (last hoveringWorld)).
Proof.
  assert (Hs : spawned hoveringWorld
                 (worldOf (handleOnMove demoClock demoRandom
                                        (Some (mkPointer 150 0)) hoveringWorld))).
  { eexists. vm_compute. reflexivity. }
  split; [reflexivity | ].
  exact (consecutive_stars_apart demoClock demoRandom (mkPointer 150 0)
           hoveringWorld eq_refl demoClock_monotone Hs).
Defined.

Lemma stored_timestamp_is_past_reading_witness :
  0 <= calcElapsedTime (starTimestamp (last oneStarWorld))
                       (demoClock (clockReads oneStarWorld)).
Proof.
  exact (proj2 (stored_timestamp_is_past_reading demoClock demoRandom
                  [BannerMouseEnter; MouseMove (mkPointer 150 0)])
               demoClock_monotone).
Defined.

Lemma no_star_until_banner_entered_witness :
  isHovering (initial demoClock) = false /\
  nextNode (run demoClock demoRandom
                [MouseMove (mkPointer 500 500); TouchMove [];
                 BodyMouseLeave; TimerFires 3]
                (initial demoClock)) =
  nextNode (initial demoClock).
Proof.
  split; [reflexivity | ].
  exact (proj1 (proj2 (no_star_until_banner_entered demoClock demoRandom
                         [MouseMove (mkPointer 500 500); TouchMove [];
                          BodyMouseLeave; TimerFires 3]
                         (initial demoClock) eq_refl eq_refl))).
Defined.

(** ** Further properties: all removals fire *)

(* The events of the pending removals firing, oldest first. *)
Definition pendingRemovals (w : World) : list Event :=
  map (fun t => TimerFires (timerElement t)) (timers w).

Lemma filter_out_head (e : nat) (l : list nat) :
  ~ In e l -> filter (fun i => negb (Nat.eqb i e)) (e :: l) = l.
Proof.
  intros Hn. cbn [filter]. rewrite Nat.eqb_refl. cbn [negb].
  apply filter_keeps_all. intros i Hi.
  apply negb_true_iff, Nat.eqb_neq. intros ->. contradiction.
Qed.

(* Firing the oldest pending removal of a consistent world drops the
   first pending removal and the first child. *)
Lemma afterRemoval_oldest (t : Timer) (ts : list Timer) (w : World) :
  consistent w -> timers w = t :: ts ->
  timers (afterRemoval (timerElement t) w) = ts /\
  List.length (children (afterRemoval (timerElement t) w)) = List.length ts.
Proof.
  intros Hc Ht. pose proof (afterRemoval_consistent (timerElement t) w Hc) as Hc'.
  destruct Hc as [Hm [_ [Hnd _]]]. destruct Hc' as [Hm' _].
  unfold childIds in *. rewrite Ht in Hm. cbn [map] in Hm.
  assert (Hts : timers (afterRemoval (timerElement t) w) = ts).
  { assert (Hf : timers (afterRemoval (timerElement t) w) =
                 filter (fun u => negb (Nat.eqb (timerElement u) (timerElement t)))
                        (timers w)).
    { unfold afterRemoval. cbv zeta.
      destruct (existsb _ (children w)); reflexivity. }
    rewrite Hf, Ht. cbn [filter]. rewrite Nat.eqb_refl. cbn [negb].
    apply filter_keeps_all. intros u Hu.
    apply negb_true_iff, Nat.eqb_neq. intros Heq.
    rewrite <- Hm in Hnd. inversion Hnd as [ | a l Hna _]; subst.
    apply Hna. rewrite <- Heq. apply in_map. exact Hu. }
  split; [exact Hts | ].
  rewrite <- (length_map nodeId), <- Hm', Hts, length_map. reflexivity.
Qed.

Lemma run_pendingRemovals (clock : nat -> Z) (random : nat -> Q)
      (n : nat) (w : World) :
  consistent w -> List.length (timers w) = n ->
  let w' := run clock random (pendingRemovals w) w in
  children w' = [] /\ timers w' = [] /\
  last w' = last w /\ isHovering w' = isHovering w /\
  nextNode w' = nextNode w.
Proof.
  revert w. induction n as [ | n IH]; intros w Hc Hn.
  - unfold pendingRemovals. destruct (timers w) as [ | t ts] eqn:Ht;
      [ | discriminate]. cbn.
    destruct Hc as [Hm _]. unfold childIds in Hm. rewrite Ht in Hm.
    cbn in Hm. symmetry in Hm. apply map_eq_nil in Hm.
    repeat split; assumption.
  - unfold pendingRemovals. destruct (timers w) as [ | t ts] eqn:Ht;
      [discriminate | ]. cbn [map run]. cbv zeta.
    rewrite dispatch_world.
    destruct (afterRemoval_oldest t ts w Hc Ht) as [Hts _].
    pose proof (afterRemoval_consistent (timerElement t) w Hc) as Hc'.
    assert (Hn' : List.length (timers (afterRemoval (timerElement t) w)) = n).
    { rewrite Hts. cbn in Hn. lia. }
    specialize (IH _ Hc' Hn'). cbv zeta in IH.
    unfold pendingRemovals in IH. rewrite Hts in IH.
    destruct IH as [H1 [H2 [H3 [H4 H5]]]].
    assert (Hsame : last (afterRemoval (timerElement t) w) = last w /\
                    isHovering (afterRemoval (timerElement t) w) = isHovering w /\
                    nextNode (afterRemoval (timerElement t) w) = nextNode w).
    { unfold afterRemoval. cbv zeta.
      destruct (existsb _ (children w)); repeat split. }
    destruct Hsame as [Hl [Hh Hnn]].
    repeat split; congruence.
Qed.

(** X17.  After any sequence of events from the loaded script, letting
    all pending removals fire (oldest first) empties banner of its stars
    and leaves no removal pending; the throttle state and the hover flag
    are not touched. *)
Theorem all_removals_empty_banner (clock : nat -> Z) (random : nat -> Q)
        (evs : list Event) :
  let w := run clock random evs (initial clock) in
  let w' := run clock random (pendingRemovals w) w in
  children w' = [] /\ timers w' = [] /\
  last w' = last w /\ isHovering w' = isHovering w.
Proof.
  cbn zeta.
  destruct (run_pendingRemovals clock random
              (List.length (timers (run clock random evs (initial clock))))
              (run clock random evs (initial clock))
              (reachable_consistent clock random evs) eq_refl)
    as [H1 [H2 [H3 [H4 _]]]].
  repeat split; assumption.
Qed.
